(** * rent-backend: the serializers of the rental-management API

  A shallow embedding of [api/serializers.py] and of the default
  e-mail pattern of [backend/settings.py], with the properties the
  specification states about them.

  Python values are modelled as follows.
  - [str] is [string]; a dictionary with string keys is a [gmap string _].
  - [datetime.timedelta] is a signed count of microseconds, the value
    Python normalises into days, seconds and microseconds.  Sums and
    differences are exact integers; the constructor from a float number of
    days rounds as the interpreter does and raises [OverflowError] beyond
    999999999 days.
  - [float] is a finite binary64 number, kept as a mantissa and a binary
    exponent, with division and multiplication rounded to nearest, ties to
    even.
  - [datetime.datetime] is a count of microseconds of wall-clock time since
    0001-01-01T00:00:00, the day of proleptic Gregorian ordinal 1.  Both
    dates of a reservation come out of the same serializer field and carry
    the same [tzinfo], and Python then compares and subtracts the
    wall-clock values.
  - An exception is a value of [exn]; a call that may raise returns a
    [result]. *)

From stdpp Require Import gmap strings list.
From Stdlib Require Import ZArith Lia Ascii.

Open Scope Z_scope.

(** ** Exceptions and results *)

Inductive exn :=
| ValidationError (detail : string)
| KeyError (key : string)
| TypeError (msg : string)
| ValueError (msg : string)
| AttributeError (name : string)
| IntegrityError (msg : string)
| OverflowError (msg : string).

Inductive result (A : Type) :=
| Ok (a : A)
| Raise (e : exn).
Arguments Ok {A} a.
Arguments Raise {A} e.

#[global] Instance result_ret : MRet result := fun A a => Ok a.
#[global] Instance result_bind : MBind result := fun A B f m =>
match m with
| Ok a => f a
| Raise e => Raise e
end.

Definition is_ValidationError {A} (r : result A) : Prop :=
∃ detail, r = Raise (ValidationError detail).

Definition is_Ok {A} (r : result A) : Prop := ∃ a, r = Ok a.

(** ** float *)

Module float.

(** The number [mant * 2 ^ expo]. *)
Record t := Build { mant : Z; expo : Z }.

(** The same number as a fraction with a positive denominator. *)
Definition num (x : t) : Z := mant x * 2 ^ Z.max (expo x) 0.
Definition den (x : t) : Z := 2 ^ Z.max (- expo x) 0.

(** [a / b] rounded to the nearest integer, a tie to the even one, for
    [0 <= a] and [0 < b]. *)
Definition div_half_even (a b : Z) : Z :=
  let q := a / b in
  let r := a mod b in
  if 2 * r <? b then q
  else if b <? 2 * r then q + 1
  else if Z.even q then q else q + 1.

(** The float nearest to [n / d], for [0 < d]: the exponent [e] is chosen
    so that the mantissa has 53 bits, and the mantissa is [|n| / (d * 2^e)]
    rounded.  The numbers met here are far from the largest and the smallest
    exponent of the format. *)
Definition of_ratio (n d : Z) : t :=
  if n =? 0 then Build 0 0
  else
    let a := Z.abs n in
    let e0 := Z.log2 a - Z.log2 d - 52 in
    let e := if (a * 2 ^ Z.max (- e0) 0) / (d * 2 ^ Z.max e0 0) <? 2 ^ 52
             then e0 - 1 else e0 in
    let m := div_half_even (a * 2 ^ Z.max (- e) 0) (d * 2 ^ Z.max e 0) in
    Build (Z.sgn n * m) e.

Definition is_zero (x : t) : bool := mant x =? 0.

(** [modf(x)]: the fractional and the integral part, both with the sign of
    [x]. *)
Definition modf (x : t) : t * Z :=
  (Build (Z.rem (num x) (den x)) (- Z.max (- expo x) 0),
   Z.quot (num x) (den x)).

(** The product of the integer [k], taken as a float, and [x]. *)
Definition mul_Z (k : Z) (x : t) : t := of_ratio (k * num x) (den x).

(** C's [round] of [n / d]: to the nearest integer, a tie away from zero. *)
Definition round_ratio (n d : Z) : Z :=
  Z.sgn n * ((2 * Z.abs n + d) / (2 * d)).

Definition round (x : t) : Z := round_ratio (num x) (den x).

(** [fabs(round(x) - x) == 0.5] for [|x| < 1]. *)
Definition is_half (x : t) : bool := 2 * Z.abs (num x) =? den x.

End float.

(** ** datetime.timedelta *)

Module timedelta.

Record t := Build { to_microseconds : Z }.

Definition us_per_second : Z := 1000000.
Definition us_per_day : Z := 86400 * us_per_second.

(** [timedelta(days=d, seconds=s, microseconds=us)] with integer arguments. *)
Definition make (d s us : Z) : t :=
  Build (d * us_per_day + s * us_per_second + us).

(** The normalised attributes: [0 <= seconds < 86400] and
    [0 <= microseconds < 1000000], the sign is carried by [days]. *)
Definition days (x : t) : Z := to_microseconds x / us_per_day.
Definition seconds (x : t) : Z :=
  (to_microseconds x mod us_per_day) / us_per_second.
Definition microseconds (x : t) : Z := to_microseconds x mod us_per_second.

Definition add (x y : t) : t := Build (to_microseconds x + to_microseconds y).
Definition ltb (x y : t) : bool := to_microseconds x <? to_microseconds y.

(** [total_seconds()]: the microseconds divided by [10**6], a true division
    of integers, which gives the nearest float. *)
Definition total_seconds (x : t) : float.t :=
  float.of_ratio (to_microseconds x) us_per_second.

(** The largest number of days of a timedelta; a timedelta of the
    interpreter has that many days at most, in magnitude. *)
Definition max_days : Z := 999999999.
Definition valid (x : t) : Prop := - max_days <= days x <= max_days.

(** [timedelta(days=v)] for a float [v], as the interpreter computes it: the
    whole days are taken exactly; the fraction of a day is multiplied by the
    microseconds of a day in floating point, its whole microseconds are
    added and what is left is rounded to the nearest microsecond, a tie to
    the side that makes the sum even.  A result of more than [max_days] days
    in magnitude is an [OverflowError]. *)
Definition of_days (v : float.t) : result t :=
  let '(fracpart, intpart) := float.modf v in
  let sum := intpart * us_per_day in
  let x :=
    if float.is_zero fracpart then sum
    else
      let dnum := float.mul_Z us_per_day fracpart in
      let '(leftover_us, intpart) := float.modf dnum in
      let x := sum + intpart in
      if float.is_zero leftover_us then x
      else
        let whole_us :=
          if float.is_half leftover_us
          then
            let x_is_odd := if Z.odd x then 1 else 0 in
            2 * float.round_ratio
                  (float.num leftover_us + x_is_odd * float.den leftover_us)
                  (2 * float.den leftover_us)
            - x_is_odd
          else float.round leftover_us in
        x + whole_us in
  if (- max_days <=? x / us_per_day) && (x / us_per_day <=? max_days)
  then Ok (Build x)
  else Raise (OverflowError "days; must have magnitude <= 999999999").

End timedelta.

(** ** datetime.datetime *)

Module datetime.

Record t := Build { to_microseconds : Z }.

(** [toordinal()]: 0001-01-01 has ordinal 1. *)
Definition toordinal (x : t) : Z :=
  to_microseconds x / timedelta.us_per_day + 1.

(** [isoweekday()] is [self.toordinal() % 7 or 7]: Monday is 1, Sunday 7. *)
Definition isoweekday (x : t) : Z :=
  let r := toordinal x mod 7 in
  if r =? 0 then 7 else r.

Definition sub (x y : t) : timedelta.t :=
  timedelta.Build (to_microseconds x - to_microseconds y).
Definition geb (x y : t) : bool := to_microseconds y <=? to_microseconds x.

(** Midnight of the day with the given ordinal. *)
Definition of_ordinal (n : Z) : t := Build ((n - 1) * timedelta.us_per_day).

End datetime.

(** ** MaxRentDurationSerializer *)

Module MaxRentDurationSerializer.

(** A row of [models.MaxRentDuration]: the longest rent of an object type
    for a priority. *)
Record MaxRentDuration := {
  id : Z;
  prio : Z;
  rental_object_type : Z;
  duration : timedelta.t;
}.

(** The validated data handed to [create] and [update].  A partial update
    may leave any key out. *)
Record validated := {
  v_prio : option Z;
  v_rental_object_type : option Z;
  v_duration : option timedelta.t;
}.

Definition table := list MaxRentDuration.

Definition get_duration_in_days (obj : MaxRentDuration) : Z :=
  timedelta.days (duration obj).

(** [validated_data['duration'] =
      timedelta(days=validated_data['duration'].total_seconds())] *)
Definition rescale (v : validated) : result validated :=
  match v_duration v with
  | None => Raise (KeyError "duration")
  | Some d =>
      d' ← timedelta.of_days (timedelta.total_seconds d);
      Ok {| v_prio := v_prio v;
            v_rental_object_type := v_rental_object_type v;
            v_duration := Some d' |}
  end.

Definition fresh_id (tb : table) : Z := 1 + foldr Z.max 0 (id <$> tb).

(** [ModelSerializer.create]: the manager's [create] called with the
    validated data as keyword arguments. *)
Definition model_create (v : validated) (tb : table)
  : result (MaxRentDuration * table) :=
  match v_prio v, v_rental_object_type v, v_duration v with
  | Some p, Some o, Some d =>
      let row := {| id := fresh_id tb; prio := p;
                    rental_object_type := o; duration := d |} in
      Ok (row, tb ++ [row])
  | _, _, _ => Raise (IntegrityError "NOT NULL constraint failed")
  end.

(** [ModelSerializer.update]: every key of the validated data is set on the
    instance, which is then saved under its primary key. *)
Definition set_attrs (v : validated) (inst : MaxRentDuration)
  : MaxRentDuration :=
  {| id := id inst;
     prio := default (prio inst) (v_prio v);
     rental_object_type :=
       default (rental_object_type inst) (v_rental_object_type v);
     duration := default (duration inst) (v_duration v) |}.

Definition save (row : MaxRentDuration) (tb : table) : table :=
  if existsb (λ r, id r =? id row) tb
  then (λ r, if id r =? id row then row else r) <$> tb
  else tb ++ [row].

Definition model_update (inst : MaxRentDuration) (v : validated)
    (tb : table) : result (MaxRentDuration * table) :=
  let row := set_attrs v inst in Ok (row, save row tb).

Definition create (v : validated) (tb : table)
  : result (MaxRentDuration * table) :=
  v' ← rescale v; model_create v' tb.

Definition update (inst : MaxRentDuration) (v : validated) (tb : table)
  : result (MaxRentDuration * table) :=
  v' ← rescale v; model_update inst v' tb.

End MaxRentDurationSerializer.

(** ** BulkReservationSerializer *)

Module BulkReservationSerializer.

Record RentalObjectType := { pk : Z }.

(** The reserver is a profile; [prio] is its priority tier. *)
Record Profile := { prio : Z }.

(** The dictionary [data] that [validate] receives, one field per key. *)
Record data := {
  objecttype : RentalObjectType;
  reserver : Profile;
  operation_number : Z;
  reserved_from : datetime.t;
  reserved_until : datetime.t;
  count : Z;
}.

(** What [validate] reads from [base.models], whose code is not part of the
    serializers:
    - [max_rent_duration p q] is the [duration] of
      [RentalObjectType.max_rent_duration(pk=p, prio=q)];
    - [available o a b] is the entry ['available'] of
      [RentalObjectType.available(pk=o, from_date=a, until_date=b)];
    - [setting_int ty] is [int(Settings.objects.get(type=ty).value)]. *)
Record models := {
  max_rent_duration : Z → Z → timedelta.t;
  available : RentalObjectType → datetime.t → datetime.t → Z;
  setting_int : string → Z;
}.

Definition msg_duration : string :=
  "the rent duration exceeds max_rent_duration.".
Definition msg_lenting : string :=
  "this day is not a lenting day therefore a reservation can not start here".
Definition msg_returning : string :=
  "this day is not a returning day therefore a reservation can not end here".
Definition msg_order : string :=
  "reserved_from must be before reserved_until".
Definition msg_available : string :=
  "There are not enough objects of this type to fullfill your reservation".

(** The five conditions of [validate], each true when its check fails. *)
Definition exceeds_duration (m : models) (d : data) : bool :=
  timedelta.ltb
    (timedelta.add (max_rent_duration m (pk (objecttype d)) (prio (reserver d)))
                   (timedelta.make 7 0 0))
    (datetime.sub (reserved_until d) (reserved_from d)).

Definition not_lenting_day (m : models) (d : data) : bool :=
  negb (datetime.isoweekday (reserved_from d) =? setting_int m "lenting_day").

Definition not_returning_day (m : models) (d : data) : bool :=
  negb (datetime.isoweekday (reserved_until d) =? setting_int m "returning_day").

Definition not_ordered (d : data) : bool :=
  datetime.geb (reserved_from d) (reserved_until d).

Definition exceeds_available (m : models) (d : data) : bool :=
  available m (objecttype d) (reserved_from d) (reserved_until d) <? count d.

Definition validate (m : models) (d : data) : result data :=
  if exceeds_duration m d then Raise (ValidationError msg_duration)
  else if not_lenting_day m d then Raise (ValidationError msg_lenting)
  else if not_returning_day m d then Raise (ValidationError msg_returning)
  else if not_ordered d then Raise (ValidationError msg_order)
  else if exceeds_available m d then Raise (ValidationError msg_available)
  else Ok d.




(** The longest rent the models configure for the reserver's priority and the
    requested object type, and the span the reservation asks for. *)
Definition max_rent (m : models) (d : data) : timedelta.t :=
  max_rent_duration m (pk (objecttype d)) (prio (reserver d)).

Definition span (d : data) : timedelta.t :=
  datetime.sub (reserved_until d) (reserved_from d).

(** The dictionary [data] with another value under the key [count]. *)
Definition with_count (n : Z) (d : data) : data := {|
  objecttype := objecttype d;
  reserver := reserver d;
  operation_number := operation_number d;
  reserved_from := reserved_from d;
  reserved_until := reserved_until d;
  count := n;
|}.

(** A reservation of two weeks from Thursday 2023-01-19 by a reserver whose
    priority allows one week, with Thursday as lending and returning day and
    ten objects available. *)
Definition models_one_week : models := {|
  max_rent_duration := λ _ _, timedelta.make 7 0 0;
  available := λ _ _ _, 10;
  setting_int := λ _, 4;
|}.

Definition two_weeks : data := {|
  objecttype := {| pk := 1 |};
  reserver := {| prio := 1 |};
  operation_number := 1;
  reserved_from := datetime.of_ordinal 738539;
  reserved_until := datetime.of_ordinal 738553;
  count := 1;
|}.


End BulkReservationSerializer.

(** ** Regular expressions: the part of [re] the e-mail pattern uses *)

Module re.

(** A compiled pattern.  [Class p] matches one character that satisfies [p]:
    a literal, an escape such as [\S], or a bracketed set. *)
Inductive pattern :=
| Never
| Empty
| Class (p : ascii → bool)
| Cat (r1 r2 : pattern)
| Alt (r1 r2 : pattern)
| Star (r : pattern).

Definition Lit (c : ascii) : pattern := Class (Ascii.eqb c).
Definition Plus (r : pattern) : pattern := Cat r (Star r).
Definition Opt (r : pattern) : pattern := Alt r Empty.

Fixpoint Str (s : string) : pattern :=
  match s with
  | EmptyString => Empty
  | String c s' => Cat (Lit c) (Str s')
  end.

Definition code (c : ascii) : N := Ascii.N_of_ascii c.

Definition in_range (lo hi : N) (c : ascii) : bool :=
  ((lo <=? code c) && (code c <=? hi))%N.

(** [\s] of a [str] pattern: the characters for which [str.isspace()] holds,
    among the code points below 256. *)
Definition is_space (c : ascii) : bool :=
  in_range 9 13 c || in_range 28 32 c || (code c =? 133)%N || (code c =? 160)%N.

(** [\S] *)
Definition non_space (c : ascii) : bool := negb (is_space c).

(** [[a-zA-Z0-9]] *)
Definition alnum (c : ascii) : bool :=
  in_range 97 122 c || in_range 65 90 c || in_range 48 57 c.

(** The strings a pattern matches in full. *)
Inductive lang : pattern → string → Prop :=
| lang_empty : lang Empty ""
| lang_class p c : p c = true → lang (Class p) (String c "")
| lang_cat r1 r2 s1 s2 :
    lang r1 s1 → lang r2 s2 → lang (Cat r1 r2) (s1 +:+ s2)
| lang_alt_l r1 r2 s : lang r1 s → lang (Alt r1 r2) s
| lang_alt_r r1 r2 s : lang r2 s → lang (Alt r1 r2) s
| lang_star_nil r : lang (Star r) ""
| lang_star_cons r s1 s2 :
    lang r s1 → lang (Star r) s2 → lang (Star r) (s1 +:+ s2).

(** Matching by derivatives: [deriv c r] matches [s] exactly when [r] matches
    [c] followed by [s]. *)
Fixpoint nullable (r : pattern) : bool :=
  match r with
  | Never => false
  | Empty => true
  | Class _ => false
  | Cat r1 r2 => nullable r1 && nullable r2
  | Alt r1 r2 => nullable r1 || nullable r2
  | Star _ => true
  end.

Fixpoint deriv (c : ascii) (r : pattern) : pattern :=
  match r with
  | Never => Never
  | Empty => Never
  | Class p => if p c then Empty else Never
  | Cat r1 r2 =>
      if nullable r1
      then Alt (Cat (deriv c r1) r2) (deriv c r2)
      else Cat (deriv c r1) r2
  | Alt r1 r2 => Alt (deriv c r1) (deriv c r2)
  | Star r1 => Cat (deriv c r1) (Star r1)
  end.

Fixpoint matches (r : pattern) (s : string) : bool :=
  match s with
  | EmptyString => nullable r
  | String c s' => matches (deriv c r) s'
  end.

(** A match object; [group0] is [group(0)], the text that matched. *)
Record Match := { group0 : string }.

(** [Pattern.fullmatch]: a match only when the whole string matches. *)
Definition fullmatch (r : pattern) (s : string) : option Match :=
  if matches r s then Some {| group0 := s |} else None.

End re.

(** [EMAIL_VALIDATION_REGEX] of [backend/settings.py],
    [\S+@([a-zA-Z0-9]+\.)?rwth-aachen\.de], as a compiled pattern. *)
Definition EMAIL_VALIDATION_REGEX : re.pattern :=
  re.Cat (re.Plus (re.Class re.non_space))
    (re.Cat (re.Lit "@")
       (re.Cat (re.Opt (re.Cat (re.Plus (re.Class re.alnum)) (re.Lit ".")))
               (re.Str "rwth-aachen.de"))).

(** ** Attribute values of model instances and of serialized output *)

Inductive pyval :=
| VNone
| VBool (b : bool)
| VInt (z : Z)
| VStr (s : string).

#[global] Instance pyval_eq_dec : EqDecision pyval.
Proof. solve_decision. Defined.

(** ** UserCreationSerializer *)

Module UserCreationSerializer.

(** A row of [django.contrib.auth.models.User]. *)
Record User := {
  pk : Z;
  username : string;
  password : string;
  email : string;
  first_name : string;
  last_name : string;
  is_active : bool;
  is_staff : bool;
  is_superuser : bool;
}.

(** The database: the user table and the profile table, a profile being the
    dictionary its serializer saved. *)
Record db := {
  users : list User;
  profiles : list (gmap string pyval);
}.

(** The dictionary [validated_data], one optional field per key. *)
Record validated := {
  v_username : option string;
  v_password : option string;
  v_email : option string;
  v_first_name : option string;
  v_last_name : option string;
  v_is_active : option bool;
  v_groups : option (list Z);
  v_profile : option (gmap string pyval);
}.

(** What the serializer uses from the framework and from [base.models]:
    - [email_validation_regex] is
      [re.compile(Settings.objects.get(type='email_validation_regex').value)];
    - [make_password], [normalize_email] and [normalize_username] are the
      functions of the same names that [create_user] applies;
    - [ProfileSerializer_is_valid s d] is the outcome of
      [ProfileSerializer(data=d).is_valid()] in the database [s]. *)
Record models := {
  email_validation_regex : re.pattern;
  make_password : option string → string;
  normalize_email : string → string;
  normalize_username : string → string;
  ProfileSerializer_is_valid : db → gmap string pyval → bool;
}.

(** A computation on the database that may raise. *)
Definition M (A : Type) : Type := db → result A * db.

#[global] Instance M_ret : MRet M := λ A a s, (Ok a, s).
#[global] Instance M_bind : MBind M := λ A B f m s,
  match m s with
  | (Ok a, s') => f a s'
  | (Raise e, s') => (Raise e, s')
  end.

Definition raise {A} (e : exn) : M A := λ s, (Raise e, s).
Definition get : M db := λ s, (Ok s, s).
Definition put (s : db) : M unit := λ _, (Ok tt, s).

(** [transaction.atomic]: when the body raises, the database is rolled back
    to what it was on entry and the exception goes on. *)
Definition atomic {A} (body : M A) : M A := λ s,
  match body s with
  | (Ok a, s') => (Ok a, s')
  | (Raise e, _) => (Raise e, s)
  end.

Definition msg_format : string := "Email ist im falsche Format".
Definition msg_in_use : string := "Email bereits in Benutzung".

(** [User.objects.all().filter(email=email).count()] *)
Definition count_email (s : db) (e : string) : nat :=
  length (filter (λ u, email u = e) (users s)).

Definition validate_email (m : models) (s : db) (e : string) : result string :=
  let result := re.fullmatch (email_validation_regex m) e in
  if negb (match result with
           | Some r => bool_decide (re.group0 r = e)
           | None => false
           end)
  then Raise (ValidationError msg_format)
  else if bool_decide (0 < count_email s e)%nat
  then Raise (ValidationError msg_in_use)
  else Ok e.

Definition fresh_pk (s : db) : Z := 1 + foldr Z.max 0 (pk <$> users s).

(** [User.objects.create_user( **validated_data )]: the user name is
    required and must not be empty, [groups] and [profile] are no keyword
    arguments the model takes, staff and superuser status default to false,
    and the user name is unique in the table. *)
Definition create_user (m : models) (v : validated) : M User :=
  match v_username v with
  | None => raise (TypeError "create_user() missing argument: 'username'")
  | Some name =>
      if bool_decide (name = "")
      then raise (ValueError "The given username must be set")
      else if bool_decide (is_Some (v_groups v) ∨ is_Some (v_profile v))
      then raise (TypeError "User() got unexpected keyword arguments")
      else
        s ← get;
        let name' := normalize_username m name in
        if bool_decide (name' ∈ username <$> users s)
        then raise (IntegrityError "UNIQUE constraint failed: auth_user.username")
        else
          let user := {|
            pk := fresh_pk s;
            username := name';
            password := make_password m (v_password v);
            email := normalize_email m (default "" (v_email v));
            first_name := default "" (v_first_name v);
            last_name := default "" (v_last_name v);
            is_active := default true (v_is_active v);
            is_staff := false;
            is_superuser := false |} in
          _ ← put {| users := users s ++ [user]; profiles := profiles s |};
          mret user
  end.

(** [profile_serializer.is_valid(raise_exception=True)] *)
Definition ProfileSerializer_validate (m : models)
    (d : gmap string pyval) : M unit :=
  s ← get;
  if ProfileSerializer_is_valid m s d then mret tt
  else raise (ValidationError "profile").

(** [profile_serializer.save()] *)
Definition ProfileSerializer_save (d : gmap string pyval) : M unit :=
  s ← get; put {| users := users s; profiles := profiles s ++ [d] |}.

Definition set_is_active (b : bool) (v : validated) : validated :=
  {| v_username := v_username v; v_password := v_password v;
     v_email := v_email v; v_first_name := v_first_name v;
     v_last_name := v_last_name v; v_is_active := Some b;
     v_groups := v_groups v; v_profile := v_profile v |}.

Definition del_groups (v : validated) : validated :=
  {| v_username := v_username v; v_password := v_password v;
     v_email := v_email v; v_first_name := v_first_name v;
     v_last_name := v_last_name v; v_is_active := v_is_active v;
     v_groups := None; v_profile := v_profile v |}.

(** [validated_data.pop('profile')]: the value and the dictionary without
    the key. *)
Definition pop_profile (v : validated)
    : M (gmap string pyval * validated) :=
  match v_profile v with
  | None => raise (KeyError "profile")
  | Some p =>
      mret (p, {| v_username := v_username v; v_password := v_password v;
                  v_email := v_email v; v_first_name := v_first_name v;
                  v_last_name := v_last_name v; v_is_active := v_is_active v;
                  v_groups := v_groups v; v_profile := None |})
  end.

(** The body of [create], without its decorator. *)
Definition create_body (m : models) (validated_data : validated) : M User :=
  let validated_data := set_is_active false validated_data in
  let validated_data :=
    if bool_decide (is_Some (v_groups validated_data))
    then del_groups validated_data else validated_data in
  '(profile_data, validated_data) ← pop_profile validated_data;
  user ← create_user m validated_data;
  let profile_data := <["user" := VInt (pk user)]> profile_data in
  _ ← ProfileSerializer_validate m profile_data;
  _ ← ProfileSerializer_save profile_data;
  mret user.

Definition create (m : models) (validated_data : validated) : M User :=
  atomic (create_body m validated_data).

(** The texts a boolean field of the framework takes for true or false. *)
Definition boolean_words : list string :=
  ["t"; "T"; "y"; "Y"; "yes"; "Yes"; "YES"; "true"; "True"; "TRUE";
   "on"; "On"; "ON"; "1";
   "f"; "F"; "n"; "N"; "no"; "No"; "NO"; "false"; "False"; "FALSE";
   "off"; "Off"; "OFF"; "0"].

(** A database without users, and models with the default e-mail pattern, no
    normalisation, and a profile serializer that checks the one field the
    migration shows, [newsletter]: a boolean field with a default, so the key
    may be absent, and a value that is no boolean is rejected. *)
Definition models_default : models := {|
  email_validation_regex := EMAIL_VALIDATION_REGEX;
  make_password := λ p, "pbkdf2_sha256$" +:+ default "!" p;
  normalize_email := λ e, e;
  normalize_username := λ n, n;
  ProfileSerializer_is_valid := λ _ d,
    match d !! "newsletter" with
    | None | Some (VBool _) => true
    | Some (VInt z) => bool_decide (z = 0 ∨ z = 1)
    | Some (VStr w) => bool_decide (w ∈ boolean_words)
    | Some VNone => false
    end;
|}.

Definition db_empty : db := {| users := []; profiles := [] |}.

(** The dictionary with another, or no, value under the key [groups]. *)
Definition set_groups (g : option (list Z)) (v : validated) : validated :=
  {| v_username := v_username v; v_password := v_password v;
     v_email := v_email v; v_first_name := v_first_name v;
     v_last_name := v_last_name v; v_is_active := v_is_active v;
     v_groups := g; v_profile := v_profile v |}.

(** A registration that asks for an active account in two groups. *)
Definition profile_data (newsletter : pyval) : gmap string pyval :=
  {[ "newsletter" := newsletter ]}.

Definition registration (newsletter : pyval) : validated := {|
  v_username := Some "alice";
  v_password := Some "secret";
  v_email := Some "alice@rwth-aachen.de";
  v_first_name := Some "Alice";
  v_last_name := None;
  v_is_active := Some true;
  v_groups := Some [1; 2];
  v_profile := Some (profile_data newsletter);
|}.

Definition alice : validated := registration (VBool true).
Definition alice_bad_newsletter : validated := registration (VStr "maybe").

End UserCreationSerializer.

(** ** UserSerializer *)

Module UserSerializer.
Import UserCreationSerializer.

(** What [create] and [update] call outside this file:
    - [Profile_objects_create d] is the manager's [create] of the profile
      model with the keyword arguments [d];
    - [ProfileSerializer_update p d] is
      [ProfileSerializer.update(p, p, d)] for the profile [p]. *)
Record models := {
  Profile_objects_create : gmap string pyval → M unit;
  ProfileSerializer_update : gmap string pyval → gmap string pyval → M unit;
}.

(** [validated_data.pop('profile')] *)
Definition pop_profile := UserCreationSerializer.pop_profile.

(** [User.objects.create( **validated_data )]: a plain insert, without the
    hashing and the normalisation of [create_user]; [groups] and [profile]
    are no keyword arguments the model takes, absent fields take the defaults
    of the model, and the user name is unique in the table. *)
Definition User_objects_create (v : validated) : M User :=
  if bool_decide (is_Some (v_groups v) ∨ is_Some (v_profile v))
  then raise (TypeError "User() got unexpected keyword arguments")
  else
    s ← get;
    let name := default "" (v_username v) in
    if bool_decide (name ∈ username <$> users s)
    then raise (IntegrityError "UNIQUE constraint failed: auth_user.username")
    else
      let user := {|
        pk := fresh_pk s;
        username := name;
        password := default "" (v_password v);
        email := default "" (v_email v);
        first_name := default "" (v_first_name v);
        last_name := default "" (v_last_name v);
        is_active := default true (v_is_active v);
        is_staff := false;
        is_superuser := false |} in
      _ ← put {| users := users s ++ [user]; profiles := profiles s |};
      mret user.

(** [Profile.objects.create(user=user, **profile_data)]: a key [user] in the
    dictionary would give the keyword twice, which is a [TypeError] of the
    call itself. *)
Definition Profile_create (m : models) (user : User)
    (profile_data : gmap string pyval) : M unit :=
  if bool_decide (is_Some (profile_data !! "user"))
  then raise (TypeError "create() got multiple values for keyword argument 'user'")
  else Profile_objects_create m (<["user" := VInt (pk user)]> profile_data).

Definition create (m : models) (validated_data : validated) : M User :=
  '(profile_data, validated_data) ← pop_profile validated_data;
  user ← User_objects_create validated_data;
  _ ← Profile_create m user profile_data;
  mret user.

Definition set_username_email (name mail : string) (u : User) : User := {|
  pk := pk u;
  username := name;
  password := password u;
  email := mail;
  first_name := first_name u;
  last_name := last_name u;
  is_active := is_active u;
  is_staff := is_staff u;
  is_superuser := is_superuser u |}.

(** [instance.save()]: the row with the primary key of the instance is
    replaced, or the instance is inserted when there is none; the user name
    must not be the one of another row. *)
Definition save (u : User) : M unit :=
  s ← get;
  if bool_decide (Exists (λ r, username r = username u ∧ pk r ≠ pk u) (users s))
  then raise (IntegrityError "UNIQUE constraint failed: auth_user.username")
  else if bool_decide (pk u ∈ pk <$> users s)
  then put {| users := (λ r, if bool_decide (pk r = pk u) then u else r)
                       <$> users s;
              profiles := profiles s |}
  else put {| users := users s ++ [u]; profiles := profiles s |}.

(** [instance.profile]: the profile whose [user] is the instance, if any. *)
Definition profile_of (u : User) (s : db) : option (gmap string pyval) :=
  head (filter (λ p, p !! "user" = Some (VInt (pk u))) (profiles s)).

Definition update (m : models) (instance : User) (validated_data : validated)
    : M User :=
  let instance :=
    set_username_email
      (default (username instance) (v_username validated_data))
      (default (email instance) (v_email validated_data)) instance in
  _ ← save instance;
  match v_profile validated_data with
  | None => mret instance
  | Some profile_data =>
      s ← get;
      match profile_of instance s with
      | None => mret instance
      | Some profile =>
          _ ← ProfileSerializer_update m profile profile_data;
          mret instance
      end
  end.

(** A stored user, and validated data that change her e-mail and try to
    change more. *)
Definition alice_row : User := {|
  pk := 1; username := "alice"; password := "x";
  email := "alice@rwth-aachen.de"; first_name := "Alice"; last_name := "A";
  is_active := true; is_staff := false; is_superuser := false |}.

Definition new_email : validated := {|
  v_username := None; v_password := Some "y";
  v_email := Some "a@rwth-aachen.de"; v_first_name := Some "Bob";
  v_last_name := None; v_is_active := Some false; v_groups := None;
  v_profile := None |}.

(** A new user whose profile data name a user themselves. *)
Definition bob_with_user : validated := {|
  v_username := Some "bob"; v_password := None; v_email := None;
  v_first_name := None; v_last_name := None; v_is_active := None;
  v_groups := None; v_profile := Some (<["user" := VInt 9]> ∅) |}.

(** Models whose profile manager appends the row and whose profile update
    does nothing. *)
Definition models_plain : models := {|
  Profile_objects_create := ProfileSerializer_save;
  ProfileSerializer_update := λ _ _, mret tt;
|}.

End UserSerializer.

(** ** RentalSerializer *)

Module RentalSerializer.

(** [request.user.is_staff] is all the serializer reads of a request. *)
Record User := { is_staff : bool }.
Record Request := { user : User }.

(** The keyword argument [context], a dictionary that may hold a request. *)
Record Context := { request : option Request }.
Record kwargs := { context : option Context }.

(** The class: [model_fields] are the names of the fields of [Rental] that
    [fields = '__all__'] selects, in their order; [represent f] is the
    [to_representation] of the field named [f]. *)
Record meta := {
  model_fields : list string;
  represent : string → pyval → pyval;
}.

Record serializer := { fields : list string }.

(** [kwargs.get('context', {}).get('request')] *)
Definition get_request (kw : kwargs) : option Request :=
  match context kw with
  | None => None
  | Some c => request c
  end.

(** [self.fields.pop(name)] *)
Definition pop (name : string) (s : serializer) : result serializer :=
  if bool_decide (name ∈ fields s)
  then Ok {| fields := filter (λ f, f ≠ name) (fields s) |}
  else Raise (KeyError name).

Definition hides (kw : kwargs) : bool :=
  match get_request kw with
  | None => true
  | Some r => negb (is_staff (user r))
  end.

Definition init (c : meta) (kw : kwargs) : result serializer :=
  let self := {| fields := model_fields c |} in
  if hides kw then
    self ← pop "return_processor" self;
    pop "lender" self
  else Ok self.

(** [Serializer.to_representation]: every field of the serializer reads the
    attribute of its own name; [None] stays [None]. *)
Fixpoint represent_fields (c : meta) (fs : list string)
    (instance : gmap string pyval) : result (list (string * pyval)) :=
  match fs with
  | [] => Ok []
  | f :: fs' =>
      match instance !! f with
      | None => Raise (AttributeError f)
      | Some attribute =>
          rest ← represent_fields c fs' instance;
          Ok ((f, match attribute with
                  | VNone => VNone
                  | _ => represent c f attribute
                  end) :: rest)
      end
  end.

Definition to_representation (c : meta) (self : serializer)
    (instance : gmap string pyval) : result (list (string * pyval)) :=
  represent_fields c (fields self) instance.

(** What a requester gets for a rental: the serializer is built with the
    keyword arguments of the view and the instance is rendered. *)
Definition serialize (c : meta) (kw : kwargs) (instance : gmap string pyval)
    : result (list (string * pyval)) :=
  self ← init c kw; to_representation c self instance.

(** [RentalSerializer.create]: the entry [reservation] is read and written
    back under the same key, then the manager's [create] gets the validated
    data as keyword arguments.  [objects_create] is that manager call, on
    the table of rentals. *)
Definition create
    (objects_create : gmap string pyval → list (gmap string pyval) →
                      result (gmap string pyval) * list (gmap string pyval))
    (validated_data : gmap string pyval) (tb : list (gmap string pyval))
    : result (gmap string pyval) * list (gmap string pyval) :=
  match validated_data !! "reservation" with
  | None => (Raise (KeyError "reservation"), tb)
  | Some r =>
      let validated_data := <["reservation" := r]> validated_data in
      objects_create validated_data tb
  end.

(** A manager that stores the keyword arguments as the new row. *)
Definition append_row (row : gmap string pyval) (tb : list (gmap string pyval))
    : result (gmap string pyval) * list (gmap string pyval) :=
  (Ok row, tb ++ [row]).

(** A rental class with four fields that renders every attribute as it is,
    and two rentals that differ in who handed out and who took back. *)
Definition rental_meta : meta := {|
  model_fields := ["id"; "return_processor"; "lender"; "reservation"];
  represent := λ _ v, v;
|}.

Definition rental (processor lender : string) : gmap string pyval :=
  <["id" := VInt 7]> (<["return_processor" := VStr processor]>
    (<["lender" := VStr lender]> (<["reservation" := VInt 3]> ∅))).

Definition staff_request : kwargs :=
  {| context := Some {| request := Some {| user := {| is_staff := true |} |} |} |}.
Definition member_request : kwargs :=
  {| context := Some {| request := Some {| user := {| is_staff := false |} |} |} |}.
Definition no_context : kwargs := {| context := None |}.

End RentalSerializer.

(** ** Addresses of the rwth-aachen.de domain *)

Fixpoint all_chars (p : ascii → bool) (s : string) : bool :=
  match s with
  | EmptyString => true
  | String c s' => p c && all_chars p s'
  end.

(** An address [local@domain] whose domain is [rwth-aachen.de] itself or one
    label below it. *)
Definition rwth_aachen_address (e : string) : Prop :=
  ∃ local domain,
    e = local +:+ "@" +:+ domain
    ∧ local ≠ ""
    ∧ (domain = "rwth-aachen.de"
       ∨ ∃ label, label ≠ "" ∧ all_chars re.alnum label = true
                  ∧ domain = label +:+ ".rwth-aachen.de").

(** ** backend/settings.py: the values computed from the environment *)

Module settings.

(** [str(os.environ.get(key))]: a variable that is not set reads as [None],
    whose [str] is the text [None]. *)
Definition str (v : option string) : string := default "None" v.

(** [s.startswith(p)] *)
Fixpoint startswith (p s : string) : bool :=
  match p, s with
  | EmptyString, _ => true
  | String a p', String b s' => Ascii.eqb a b && startswith p' s'
  | String _ _, EmptyString => false
  end.

(** [s.endswith(suffix)]: [s] itself or one of its tails is the suffix. *)
Fixpoint endswith (suffix s : string) : bool :=
  bool_decide (s = suffix)
  || match s with
     | EmptyString => false
     | String _ s' => endswith suffix s'
     end.

(** [old in s] *)
Fixpoint occurs (old s : string) : bool :=
  startswith old s
  || match s with
     | EmptyString => false
     | String _ s' => occurs old s'
     end.

(** [s.split(sep)] for a separator of one character. *)
Fixpoint split (sep : ascii) (s : string) : list string :=
  match s with
  | EmptyString => [""]
  | String c s' =>
      if Ascii.eqb c sep then "" :: split sep s'
      else match split sep s' with
           | piece :: pieces => String c piece :: pieces
           | [] => [String c ""]
           end
  end.

(** [sep.join(pieces)] *)
Fixpoint join (sep : ascii) (pieces : list string) : string :=
  match pieces with
  | [] => ""
  | [piece] => piece
  | piece :: pieces' => piece +:+ String sep (join sep pieces')
  end.

(** [s.replace(old, new)] for a non-empty [old]: the occurrences of [old] are
    found from left to right and do not overlap.  [skip] counts the
    characters of an occurrence that are still to be passed over. *)
Fixpoint replace_from (old new : string) (skip : nat) (s : string) : string :=
  match s with
  | EmptyString => ""
  | String c s' =>
      match skip with
      | S k => replace_from old new k s'
      | O =>
          if startswith old s
          then new +:+ replace_from old new (String.length old - 1) s'
          else String c (replace_from old new 0 s')
      end
  end.

Definition replace (old new s : string) : string := replace_from old new 0 s.

(** [x.replace('https://', '').replace('http://', '')] *)
Definition strip_scheme (x : string) : string :=
  replace "http://" "" (replace "https://" "" x).

(** The environment: the value of [FRONTEND_HOST] and of [API_HOST]. *)
Record environ := {
  env_FRONTEND_HOST : option string;
  env_API_HOST : option string;
}.

Definition ALLOWED_HOSTS (e : environ) : list string :=
  strip_scheme <$> split "," (str (env_API_HOST e)).

Definition CORS_ALLOWED_ORIGINS (e : environ) : list string :=
  split "," (str (env_FRONTEND_HOST e)).

Definition FRONTEND_HOST (e : environ) : string :=
  if endswith "/" (str (env_FRONTEND_HOST e))
  then str (env_FRONTEND_HOST e)
  else str (env_FRONTEND_HOST e) +:+ "/".

Definition CSRF_TRUSTED_ORIGINS (e : environ) : list string :=
  split "," (str (env_API_HOST e)).

End settings.

(** * Properties *)

(** ** Dates and durations *)

Lemma timedelta_days_make d : timedelta.days (timedelta.make d 0 0) = d.
Proof.
  unfold timedelta.days, timedelta.make; cbn.
  rewrite !Z.add_0_r. apply Z.div_mul.
  unfold timedelta.us_per_day, timedelta.us_per_second. lia.
Qed.


Lemma toordinal_of_ordinal n : datetime.toordinal (datetime.of_ordinal n) = n.
Proof.
  unfold datetime.toordinal, datetime.of_ordinal; cbn.
  rewrite Z.div_mul; [lia|].
  unfold timedelta.us_per_day, timedelta.us_per_second. lia.
Qed.

(** 2023-01-19, ordinal 738539, is a Thursday. *)
Example isoweekday_2023_01_19 :
  datetime.isoweekday (datetime.of_ordinal 738539) = 4.
Proof. reflexivity. Qed.

(** ** Floats: a whole number below 2^53 is a float *)

Lemma div_half_even_exact q b : 0 < b → float.div_half_even (q * b) b = q.
Proof.
  intros Hb. unfold float.div_half_even.
  rewrite Z.mod_mul, Z.div_mul by lia.
  destruct (Z.ltb_spec (2 * 0) b); [done|lia].
Qed.

Lemma of_ratio_whole N d :
  0 < d → Z.abs N < 2 ^ 53 →
  float.num (float.of_ratio (N * d) d) = N * float.den (float.of_ratio (N * d) d)
  ∧ 0 < float.den (float.of_ratio (N * d) d).
Proof.
  intros Hd HN. unfold float.of_ratio.
  destruct (Z.eqb_spec (N * d) 0) as [E|E].
  { assert (N = 0) as -> by nia. by vm_compute. }
  assert (HN0 : N ≠ 0) by (intros ->; lia).
  cbv zeta. rewrite Z.abs_mul, (Z.abs_eq d) by lia.
  set (e0 := Z.log2 (Z.abs N * d) - Z.log2 d - 52).
  assert (He0 : e0 <= 1).
  { subst e0. pose proof (Z.log2_mul_above (Z.abs N) d ltac:(lia) ltac:(lia)).
    assert (Z.log2 (Z.abs N) < 53) by (apply Z.log2_lt_pow2; lia). lia. }
  set (e := if Z.abs N * d * 2 ^ Z.max (- e0) 0 / (d * 2 ^ Z.max e0 0)
                <? 2 ^ 52
            then e0 - 1 else e0).
  assert (He : e <= 0).
  { subst e.
    destruct (Z.abs N * d * 2 ^ Z.max (- e0) 0 / (d * 2 ^ Z.max e0 0)
              <? 2 ^ 52) eqn:Hge; [lia|].
    apply Z.ltb_ge in Hge.
    destruct (decide (e0 = 1)) as [E1|]; [|lia]. exfalso.
    rewrite E1 in Hge. change (Z.max (- 1) 0) with 0 in Hge.
    change (Z.max 1 0) with 1 in Hge.
    change (2 ^ 0) with 1 in Hge. change (2 ^ 1) with 2 in Hge.
    rewrite Z.mul_1_r in Hge.
    rewrite (Z.mul_comm (Z.abs N) d) in Hge.
    rewrite Z.div_mul_cancel_l in Hge by lia.
    assert (Z.abs N / 2 < 2 ^ 52); [|lia].
    apply Z.div_lt_upper_bound; [lia|].
    change (2 * 2 ^ 52) with (2 ^ 53). lia. }
  clearbody e. clear e0 He0.
  rewrite (Z.max_r e 0), (Z.max_l (- e) 0) by lia.
  change (2 ^ 0) with 1. rewrite Z.mul_1_r.
  replace (Z.abs N * d * 2 ^ (- e)) with (Z.abs N * 2 ^ (- e) * d) by ring.
  rewrite div_half_even_exact by lia.
  unfold float.num, float.den; cbn [float.mant float.expo].
  rewrite (Z.max_r e 0), (Z.max_l (- e) 0) by lia.
  change (2 ^ 0) with 1.
  assert (0 < 2 ^ (- e)) by (apply Z.pow_pos_nonneg; lia).
  split; [|done].
  rewrite Z.sgn_mul, (Z.sgn_pos d), !Z.mul_1_r by lia.
  rewrite Z.mul_assoc. f_equal. destruct N; cbn; lia.
Qed.

Lemma modf_whole x N :
  float.num x = N * float.den x → 0 < float.den x →
  float.is_zero (float.modf x).1 = true ∧ (float.modf x).2 = N.
Proof.
  intros Hn Hd. unfold float.modf, float.is_zero; cbn.
  rewrite Hn. rewrite Z.rem_mul, Z.quot_mul by lia. done.
Qed.

(** For a duration of [n] whole seconds, [timedelta(days=total_seconds())]
    is [n] days when that is a timedelta, and an overflow otherwise. *)
Lemma of_days_total_seconds_whole d n :
  timedelta.to_microseconds d = n * timedelta.us_per_second →
  Z.abs n < 2 ^ 53 →
  timedelta.of_days (timedelta.total_seconds d)
  = if (- timedelta.max_days <=? n) && (n <=? timedelta.max_days)
    then Ok (timedelta.make n 0 0)
    else Raise (OverflowError "days; must have magnitude <= 999999999").
Proof.
  intros Hd Hn. unfold timedelta.total_seconds. rewrite Hd.
  destruct (of_ratio_whole n timedelta.us_per_second ltac:(done) Hn)
    as [H1 H2].
  destruct (modf_whole _ _ H1 H2) as [Hz Hi].
  unfold timedelta.of_days.
  destruct (float.modf _) as [fracpart intpart]. cbn in Hz, Hi.
  rewrite Hz, Hi.
  rewrite Z.div_mul by done.
  unfold timedelta.make. by rewrite !Z.add_0_r.
Qed.

(** ** MaxRentDurationSerializer *)

Section MaxRentDuration.
Import MaxRentDurationSerializer.

Example create_one_day :
  create {| v_prio := Some 1; v_rental_object_type := Some 3;
            v_duration := Some (timedelta.make 1 0 0) |} []
  = Ok ({| id := 1; prio := 1; rental_object_type := 3;
           duration := timedelta.make 86400 0 0 |},
        [ {| id := 1; prio := 1; rental_object_type := 3;
             duration := timedelta.make 86400 0 0 |} ]).
Proof. vm_compute. reflexivity. Qed.

(** One day and one microsecond: the float of the seconds is not exact, and
    the stored duration is one microsecond short of 86400.000001 days. *)
Example create_one_day_one_microsecond :
  create {| v_prio := Some 1; v_rental_object_type := Some 3;
            v_duration := Some (timedelta.make 1 0 1) |} []
  = Ok ({| id := 1; prio := 1; rental_object_type := 3;
           duration := timedelta.Build 7464960000086399 |},
        [ {| id := 1; prio := 1; rental_object_type := 3;
             duration := timedelta.Build 7464960000086399 |} ]).
Proof. vm_compute. reflexivity. Qed.

Example create_11575_days :
  create {| v_prio := Some 1; v_rental_object_type := Some 3;
            v_duration := Some (timedelta.make 11575 0 0) |} []
  = Raise (OverflowError "days; must have magnitude <= 999999999").
Proof. vm_compute. reflexivity. Qed.

Example update_without_duration inst tb :
  update inst {| v_prio := Some 2; v_rental_object_type := None;
                 v_duration := None |} tb
  = Raise (KeyError "duration").
Proof. reflexivity. Qed.

Lemma fresh_id_fresh tb : fresh_id tb ∉ id <$> tb.
Proof.
  unfold fresh_id. intros Hin.
  assert (Hle : ∀ (l : list Z) x, x ∈ l → x <= foldr Z.max 0 l).
  { induction l as [|y l IH]; intros x Hx; [by apply elem_of_nil in Hx|].
    cbn. apply elem_of_cons in Hx as [->|Hx]; [lia|].
    specialize (IH x Hx). lia. }
  apply Hle in Hin. lia.
Qed.

(** What [save] leaves in the table: the saved row, and the rows of another
    primary key. *)
Lemma elem_of_save row tb r :
  r ∈ save row tb ↔ r = row ∨ (r ∈ tb ∧ id r ≠ id row).
Proof.
  unfold save. destruct (existsb _ tb) eqn:E.
  - apply existsb_exists in E as (x & Hx & Ex).
    apply list_elem_of_In in Hx. apply Z.eqb_eq in Ex.
    rewrite list_elem_of_fmap. split.
    + intros (y & -> & Hy). destruct (Z.eqb_spec (id y) (id row)); eauto.
    + intros [->|[Hr Hne]].
      * exists x. split; [|done].
        by rewrite (proj2 (Z.eqb_eq _ _) Ex).
      * exists r. split; [|done].
        by rewrite (proj2 (Z.eqb_neq _ _) Hne).
  - rewrite elem_of_app, list_elem_of_singleton. split.
    + intros [Hr | ->]; [|by left]. right. split; [done|].
      intros Hid.
      assert (existsb (λ r0, id r0 =? id row) tb = true); [|congruence].
      apply existsb_exists. exists r. split; [by apply list_elem_of_In|].
      by apply Z.eqb_eq.
    + intros [->|[Hr _]]; [by right|by left].
Qed.

Lemma rescale_whole_seconds d n op oo :
  timedelta.to_microseconds d = n * timedelta.us_per_second →
  Z.abs n < 2 ^ 53 →
  rescale {| v_prio := op; v_rental_object_type := oo; v_duration := Some d |}
  = if (- timedelta.max_days <=? n) && (n <=? timedelta.max_days)
    then Ok {| v_prio := op; v_rental_object_type := oo;
               v_duration := Some (timedelta.make n 0 0) |}
    else Raise (OverflowError "days; must have magnitude <= 999999999").
Proof.
  intros Hd Hn. unfold rescale. cbn [v_duration v_prio v_rental_object_type].
  rewrite (of_days_total_seconds_whole d n Hd Hn).
  by destruct (_ && _).
Qed.

Lemma in_range_true n :
  Z.abs n <= timedelta.max_days →
  (- timedelta.max_days <=? n) && (n <=? timedelta.max_days) = true.
Proof.
  intros H. apply andb_true_iff. split; apply Z.leb_le; lia.
Qed.

Lemma in_range_false n :
  timedelta.max_days < Z.abs n →
  (- timedelta.max_days <=? n) && (n <=? timedelta.max_days) = false.
Proof.
  intros H. apply andb_false_iff.
  destruct (Z.leb_spec (- timedelta.max_days) n); [right|by left].
  apply Z.leb_gt. lia.
Qed.

Lemma create_whole_seconds d n p o tb :
  timedelta.to_microseconds d = n * timedelta.us_per_second →
  Z.abs n <= timedelta.max_days →
  create {| v_prio := Some p; v_rental_object_type := Some o;
            v_duration := Some d |} tb
  = let row := {| id := fresh_id tb; prio := p; rental_object_type := o;
                  duration := timedelta.make n 0 0 |} in
    Ok (row, tb ++ [row]).
Proof.
  intros Hd Hn. unfold create.
  rewrite (rescale_whole_seconds d n _ _ Hd)
    by (unfold timedelta.max_days in Hn; lia).
  by rewrite in_range_true.
Qed.

Lemma update_whole_seconds d n op oo inst tb :
  timedelta.to_microseconds d = n * timedelta.us_per_second →
  Z.abs n <= timedelta.max_days →
  update inst {| v_prio := op; v_rental_object_type := oo;
                 v_duration := Some d |} tb
  = let row := {| id := id inst; prio := default (prio inst) op;
                  rental_object_type := default (rental_object_type inst) oo;
                  duration := timedelta.make n 0 0 |} in
    Ok (row, save row tb).
Proof.
  intros Hd Hn. unfold update.
  rewrite (rescale_whole_seconds d n _ _ Hd)
    by (unfold timedelta.max_days in Hn; lia).
  by rewrite in_range_true.
Qed.

Lemma create_update_overflow d n v inst tb :
  v_duration v = Some d →
  timedelta.to_microseconds d = n * timedelta.us_per_second →
  timedelta.max_days < Z.abs n → Z.abs n < 2 ^ 53 →
  create v tb = Raise (OverflowError "days; must have magnitude <= 999999999")
  ∧ update inst v tb
    = Raise (OverflowError "days; must have magnitude <= 999999999").
Proof.
  intros Hv Hd Hn Hn'. destruct v as [op oo od]. cbn in Hv. subst od.
  unfold create, update.
  rewrite (rescale_whole_seconds d n _ _ Hd Hn').
  by rewrite in_range_false.
Qed.

Lemma make_days_seconds k :
  timedelta.to_microseconds (timedelta.make k 0 0)
  = k * 86400 * timedelta.us_per_second.
Proof. unfold timedelta.make, timedelta.us_per_day. cbn. lia. Qed.

(** C9, as the specification states it, fails: an input of 11575 days is
    not persisted as [11575 * 86400] days, nor at all; the constructor of
    the timedelta raises [OverflowError]. *)
Lemma create_overflows_from_11575_days :
  ¬ (∀ k p o tb,
       ∃ row,
         create {| v_prio := Some p; v_rental_object_type := Some o;
                   v_duration := Some (timedelta.make k 0 0) |} tb
         = Ok (row, tb ++ [row])
         ∧ duration row = timedelta.make (k * 86400) 0 0).
Proof.
  intros H. destruct (H 11575 1 3 []) as (row & Hc & _).
  vm_compute in Hc. discriminate Hc.
Qed.

(** C9, amended: [create] and [update] store
    [timedelta(days=d.total_seconds())] in place of the input duration [d].
    An input of [k] days with [|k| <= 11574] is stored as [k * 86400] days,
    in a new row by [create] and in the row of the instance by [update], and
    [duration_in_days] of the stored row is [k * 86400].  For a larger [k]
    both raise [OverflowError] and store nothing. *)
Theorem create_update_store_seconds_as_days :
  ∀ (k p o : Z) (op oo : option Z) (inst : MaxRentDuration) (tb : table),
    (- 11574 <= k <= 11574 →
     (∃ row,
         create {| v_prio := Some p; v_rental_object_type := Some o;
                   v_duration := Some (timedelta.make k 0 0) |} tb
         = Ok (row, tb ++ [row])
         ∧ (id row ∉ id <$> tb) ∧ prio row = p ∧ rental_object_type row = o
         ∧ timedelta.of_days (timedelta.total_seconds (timedelta.make k 0 0))
           = Ok (duration row)
         ∧ duration row = timedelta.make (k * 86400) 0 0
         ∧ get_duration_in_days row = k * 86400)
     ∧ (∃ row tb',
         update inst {| v_prio := op; v_rental_object_type := oo;
                        v_duration := Some (timedelta.make k 0 0) |} tb
         = Ok (row, tb')
         ∧ id row = id inst
         ∧ prio row = default (prio inst) op
         ∧ rental_object_type row = default (rental_object_type inst) oo
         ∧ timedelta.of_days (timedelta.total_seconds (timedelta.make k 0 0))
           = Ok (duration row)
         ∧ duration row = timedelta.make (k * 86400) 0 0
         ∧ get_duration_in_days row = k * 86400
         ∧ (∀ r, r ∈ tb' ↔ r = row ∨ (r ∈ tb ∧ id r ≠ id inst))))
    ∧ (11574 < Z.abs k <= timedelta.max_days →
       create {| v_prio := Some p; v_rental_object_type := Some o;
                 v_duration := Some (timedelta.make k 0 0) |} tb
       = Raise (OverflowError "days; must have magnitude <= 999999999")
       ∧ update inst {| v_prio := op; v_rental_object_type := oo;
                        v_duration := Some (timedelta.make k 0 0) |} tb
         = Raise (OverflowError "days; must have magnitude <= 999999999")).
Proof.
  intros k p o op oo inst tb.
  pose proof (make_days_seconds k) as Hd. split.
  - intros Hk.
    assert (Hn : Z.abs (k * 86400) <= timedelta.max_days)
      by (unfold timedelta.max_days; lia).
    assert (Hof : timedelta.of_days
                    (timedelta.total_seconds (timedelta.make k 0 0))
                  = Ok (timedelta.make (k * 86400) 0 0)).
    { rewrite (of_days_total_seconds_whole _ _ Hd)
        by (unfold timedelta.max_days in Hn; lia).
      by rewrite in_range_true. }
    split.
    + exists {| id := fresh_id tb; prio := p; rental_object_type := o;
                duration := timedelta.make (k * 86400) 0 0 |}.
      split; [apply (create_whole_seconds _ _ _ _ _ Hd Hn)|].
      split; [apply fresh_id_fresh|].
      split; [reflexivity|]. split; [reflexivity|].
      split; [exact Hof|]. split; [reflexivity|].
      apply timedelta_days_make.
    + exists {| id := id inst; prio := default (prio inst) op;
                rental_object_type := default (rental_object_type inst) oo;
                duration := timedelta.make (k * 86400) 0 0 |}.
      eexists.
      split; [apply (update_whole_seconds _ _ _ _ _ _ Hd Hn)|].
      split; [reflexivity|]. split; [reflexivity|]. split; [reflexivity|].
      split; [exact Hof|]. split; [reflexivity|].
      split; [apply timedelta_days_make|].
      intros r. rewrite elem_of_save. reflexivity.
  - intros Hk.
    split.
    + apply (create_update_overflow (timedelta.make k 0 0) (k * 86400)
               {| v_prio := Some p; v_rental_object_type := Some o;
                  v_duration := Some (timedelta.make k 0 0) |} inst tb
               eq_refl Hd); unfold timedelta.max_days in *; lia.
    + apply (create_update_overflow (timedelta.make k 0 0) (k * 86400)
               {| v_prio := op; v_rental_object_type := oo;
                  v_duration := Some (timedelta.make k 0 0) |} inst tb
               eq_refl Hd); unfold timedelta.max_days in *; lia.
Qed.

Lemma create_update_store_seconds_as_days_witness :
  (∃ row,
      create {| v_prio := Some 1; v_rental_object_type := Some 3;
                v_duration := Some (timedelta.make 14 0 0) |} []
      = Ok (row, [row])
      ∧ duration row = timedelta.make 1209600 0 0
      ∧ get_duration_in_days row = 1209600)
  ∧ update {| id := 1; prio := 1; rental_object_type := 3;
              duration := timedelta.make 14 0 0 |}
           {| v_prio := None; v_rental_object_type := None;
              v_duration := Some (timedelta.make 20000 0 0) |} []
    = Raise (OverflowError "days; must have magnitude <= 999999999").
Proof.
  pose proof (create_update_store_seconds_as_days 14 1 3 None None
                {| id := 1; prio := 1; rental_object_type := 3;
                   duration := timedelta.make 14 0 0 |} []) as [H14 _].
  pose proof (create_update_store_seconds_as_days 20000 1 3 None None
                {| id := 1; prio := 1; rental_object_type := 3;
                   duration := timedelta.make 14 0 0 |} []) as [_ H20000].
  split.
  - destruct (H14 ltac:(lia)) as [(row & Hc & _ & _ & _ & _ & Hd & Hg) _].
    exists row. split; [exact Hc|]. split; [exact Hd|exact Hg].
  - apply H20000. unfold timedelta.max_days. lia.
Defined.

End MaxRentDuration.

(** ** BulkReservationSerializer.validate *)

Section BulkReservation.
Import BulkReservationSerializer.

(** The five checks decide the outcome, in the order of the source. *)
Lemma validate_cases m d :
  (exceeds_duration m d = true
     ∧ validate m d = Raise (ValidationError msg_duration))
  ∨ (exceeds_duration m d = false ∧ not_lenting_day m d = true
     ∧ validate m d = Raise (ValidationError msg_lenting))
  ∨ (exceeds_duration m d = false ∧ not_lenting_day m d = false
     ∧ not_returning_day m d = true
     ∧ validate m d = Raise (ValidationError msg_returning))
  ∨ (exceeds_duration m d = false ∧ not_lenting_day m d = false
     ∧ not_returning_day m d = false ∧ not_ordered d = true
     ∧ validate m d = Raise (ValidationError msg_order))
  ∨ (exceeds_duration m d = false ∧ not_lenting_day m d = false
     ∧ not_returning_day m d = false ∧ not_ordered d = false
     ∧ exceeds_available m d = true
     ∧ validate m d = Raise (ValidationError msg_available))
  ∨ (exceeds_duration m d = false ∧ not_lenting_day m d = false
     ∧ not_returning_day m d = false ∧ not_ordered d = false
     ∧ exceeds_available m d = false
     ∧ validate m d = Ok d).
Proof.
  unfold validate.
  destruct (exceeds_duration m d); [tauto|].
  destruct (not_lenting_day m d); [tauto|].
  destruct (not_returning_day m d); [tauto|].
  destruct (not_ordered d); [tauto|].
  destruct (exceeds_available m d); tauto.
Qed.

Lemma validate_Ok_inv m d d' :
  validate m d = Ok d' →
  d' = d ∧ exceeds_duration m d = false ∧ not_lenting_day m d = false
  ∧ not_returning_day m d = false ∧ not_ordered d = false
  ∧ exceeds_available m d = false.
Proof.
  intros H.
  destruct (validate_cases m d)
    as [[? E]|[(?&?&E)|[(?&?&?&E)|[(?&?&?&?&E)|[(?&?&?&?&?&E)|(?&?&?&?&?&E)]]]]];
    rewrite E in H; try discriminate.
  injection H as <-. tauto.
Qed.



Example validate_two_weeks : validate models_one_week two_weeks = Ok two_weeks.
Proof. reflexivity. Qed.

Example validate_three_weeks :
  validate models_one_week
    {| objecttype := {| pk := 1 |}; reserver := {| prio := 1 |};
       operation_number := 1;
       reserved_from := datetime.of_ordinal 738539;
       reserved_until := datetime.of_ordinal 738560;
       count := 1 |}
  = Raise (ValidationError msg_duration).
Proof. reflexivity. Qed.

(** C1, as the specification states it, fails: a span over the maximum rent
    duration of the reserver's priority and object type is accepted as long
    as it is not more than seven days over it. *)
Lemma validate_accepts_span_over_max :
  ¬ (∀ m d,
       timedelta.ltb (max_rent m d) (span d) = true →
       is_ValidationError (validate m d)).
Proof.
  intros H.
  destruct (H models_one_week two_weeks eq_refl) as [detail Hd].
  discriminate Hd.
Qed.

(** C1, amended: a span of more than the maximum rent duration plus seven
    days raises the duration error, and the duration error is raised for no
    other span. *)
Theorem validate_enforces_max_rent_plus_week m d :
  (timedelta.ltb (timedelta.add (max_rent m d) (timedelta.make 7 0 0))
                 (span d) = true →
   validate m d = Raise (ValidationError msg_duration))
  ∧ (validate m d = Raise (ValidationError msg_duration) →
     timedelta.to_microseconds (max_rent m d) + 7 * timedelta.us_per_day
     < timedelta.to_microseconds (span d)).
Proof.
  split.
  - intros H. unfold validate, exceeds_duration.
    fold (max_rent m d). fold (span d). by rewrite H.
  - intros H.
    destruct (validate_cases m d)
      as [[C E]|[(?&?&E)|[(?&?&?&E)|[(?&?&?&?&E)|[(?&?&?&?&?&E)|(?&?&?&?&?&E)]]]]];
      rewrite E in H; try discriminate.
    unfold exceeds_duration, timedelta.ltb in C.
    apply Z.ltb_lt in C. cbn in C.
    unfold max_rent, span, datetime.sub. cbn. lia.
Qed.

Lemma validate_enforces_max_rent_plus_week_witness :
  validate models_one_week
    {| objecttype := {| pk := 1 |}; reserver := {| prio := 1 |};
       operation_number := 1;
       reserved_from := datetime.of_ordinal 738539;
       reserved_until := datetime.of_ordinal 738560;
       count := 1 |}
  = Raise (ValidationError msg_duration).
Proof.
  apply (proj1 (validate_enforces_max_rent_plus_week models_one_week _)).
  reflexivity.
Defined.











End BulkReservation.

(** ** Strings *)

Lemma append_nil_l (s : string) : "" +:+ s = s.
Proof. reflexivity. Qed.

Lemma append_cons c (s1 s2 : string) :
  String c s1 +:+ s2 = String c (s1 +:+ s2).
Proof. reflexivity. Qed.

Lemma append_nil_r (s : string) : s +:+ "" = s.
Proof. induction s as [|c s IH]; [done|]. by rewrite append_cons, IH. Qed.

Lemma append_assoc (s1 s2 s3 : string) :
  (s1 +:+ s2) +:+ s3 = s1 +:+ (s2 +:+ s3).
Proof.
  induction s1 as [|c s1 IH]; [done|]. by rewrite !append_cons, IH.
Qed.

Lemma append_eq_nil (s1 s2 : string) : s1 +:+ s2 = "" → s1 = "" ∧ s2 = "".
Proof. destruct s1; [done|]. rewrite append_cons. discriminate. Qed.

Lemma append_eq_cons (s1 s2 : string) c s :
  s1 +:+ s2 = String c s →
  (s1 = "" ∧ s2 = String c s) ∨ (∃ s1', s1 = String c s1' ∧ s = s1' +:+ s2).
Proof.
  destruct s1 as [|c1 s1]; [by left|].
  rewrite append_cons. intros [= -> <-]. right. by exists s1.
Qed.

(** ** Regular expressions: matching by derivatives is matching *)

Section re_facts.
Import re.

Lemma lang_cat_inv r1 r2 s :
  lang (Cat r1 r2) s → ∃ s1 s2, s = s1 +:+ s2 ∧ lang r1 s1 ∧ lang r2 s2.
Proof. inversion 1; subst; eauto. Qed.

Lemma lang_alt_inv r1 r2 s : lang (Alt r1 r2) s → lang r1 s ∨ lang r2 s.
Proof. inversion 1; subst; tauto. Qed.

Lemma lang_class_inv p s :
  lang (Class p) s → ∃ c, s = String c "" ∧ p c = true.
Proof. inversion 1; subst; eauto. Qed.

Lemma nullable_lang r : nullable r = true ↔ lang r "".
Proof.
  induction r as [| |p|r1 IH1 r2 IH2|r1 IH1 r2 IH2|r IH]; cbn.
  - split; [done|]. inversion 1.
  - split; [constructor|done].
  - split; [done|]. inversion 1.
  - rewrite andb_true_iff, IH1, IH2. split.
    + intros [H1 H2]. change (lang (Cat r1 r2) ("" +:+ "")). by constructor.
    + intros (s1 & s2 & E & H1 & H2)%lang_cat_inv.
      symmetry in E. apply append_eq_nil in E as [-> ->]. done.
  - rewrite orb_true_iff, IH1, IH2. split.
    + intros [H|H]; [by apply lang_alt_l|by apply lang_alt_r].
    + intros H%lang_alt_inv. tauto.
  - split; [constructor|done].
Qed.

Lemma lang_star_cons_inv r c s :
  lang (Star r) (String c s) →
  ∃ s1 s2, s = s1 +:+ s2 ∧ lang r (String c s1) ∧ lang (Star r) s2.
Proof.
  intros H. remember (Star r) as r' eqn:Er. remember (String c s) as s' eqn:Es.
  revert Er Es.
  induction H as [| | | | | |r0 s1 s2 H1 _ H2 IH2]; try discriminate.
  intros [= ->] Es.
  apply append_eq_cons in Es as [[-> ->]|(s1' & -> & ->)].
  - by apply IH2.
  - by exists s1', s2.
Qed.

Lemma deriv_lang c r s : lang (deriv c r) s ↔ lang r (String c s).
Proof.
  revert s.
  induction r as [| |p|r1 IH1 r2 IH2|r1 IH1 r2 IH2|r IH]; intros s; cbn.
  - split; inversion 1.
  - split; inversion 1.
  - destruct (p c) eqn:Hp; split.
    + inversion 1; subst. by constructor.
    + intros (c' & [= ? ?] & _)%lang_class_inv. subst. constructor.
    + inversion 1.
    + intros (c' & [= ? ?] & Hp')%lang_class_inv. congruence.
  - assert (Hcat : lang (Cat (deriv c r1) r2) s → lang (Cat r1 r2) (String c s)).
    { intros (s1 & s2 & -> & H1 & H2)%lang_cat_inv.
      rewrite <-append_cons. constructor; [by apply IH1|done]. }
    assert (Hinv : lang (Cat r1 r2) (String c s) →
                   (lang r1 "" ∧ lang r2 (String c s))
                   ∨ lang (Cat (deriv c r1) r2) s).
    { intros (s1 & s2 & E & H1 & H2)%lang_cat_inv. symmetry in E.
      apply append_eq_cons in E as [[-> ->]|(s1' & -> & ->)]; [by left|].
      right. constructor; [by apply IH1|done]. }
    destruct (nullable r1) eqn:Hn.
    + split.
      * intros [H|H]%lang_alt_inv; [by apply Hcat|].
        change (lang (Cat r1 r2) ("" +:+ String c s)).
        constructor; [by apply nullable_lang|by apply IH2].
      * intros H. apply Hinv in H as [[_ H]|H].
        -- apply lang_alt_r. by apply IH2.
        -- by apply lang_alt_l.
    + split; [exact Hcat|].
      intros H. apply Hinv in H as [[H _]|H]; [|done].
      apply nullable_lang in H. congruence.
  - split.
    + intros [H|H]%lang_alt_inv;
        [apply lang_alt_l; by apply IH1|apply lang_alt_r; by apply IH2].
    + intros [H|H]%lang_alt_inv;
        [apply lang_alt_l; by apply IH1|apply lang_alt_r; by apply IH2].
  - split.
    + intros (s1 & s2 & -> & H1 & H2)%lang_cat_inv.
      rewrite <-append_cons. constructor; [by apply IH|done].
    + intros H. apply lang_star_cons_inv in H as (s1 & s2 & -> & H1 & H2).
      constructor; [by apply IH|done].
Qed.

Lemma matches_lang r s : matches r s = true ↔ lang r s.
Proof.
  revert r. induction s as [|c s IH]; intros r; cbn.
  - apply nullable_lang.
  - rewrite IH. apply deriv_lang.
Qed.

Lemma fullmatch_Some r s m :
  fullmatch r s = Some m ↔ lang r s ∧ group0 m = s.
Proof.
  unfold fullmatch. destruct (matches r s) eqn:E.
  - apply matches_lang in E. split.
    + by intros [= <-].
    + intros [_ <-]. by destruct m.
  - split; [done|]. intros [H _]. apply matches_lang in H. congruence.
Qed.

Lemma fullmatch_None r s : fullmatch r s = None ↔ ¬ lang r s.
Proof.
  unfold fullmatch. destruct (matches r s) eqn:E.
  - apply matches_lang in E. split; [done|tauto].
  - split; [|done]. intros _ H. apply matches_lang in H. congruence.
Qed.

End re_facts.

(** ** The default e-mail pattern *)

Section email_pattern.
Import re.

Lemma lang_Lit c s : lang (Lit c) s ↔ s = String c "".
Proof.
  unfold Lit. split.
  - intros (c' & -> & H)%lang_class_inv.
    apply Ascii.eqb_eq in H. by subst.
  - intros ->. constructor. apply Ascii.eqb_refl.
Qed.

Lemma lang_Str s s' : lang (Str s) s' ↔ s' = s.
Proof.
  revert s'. induction s as [|c s IH]; intros s'; cbn.
  - split; [by inversion 1|intros ->; constructor].
  - split.
    + intros (s1 & s2 & -> & H1 & H2)%lang_cat_inv.
      apply lang_Lit in H1 as ->. apply IH in H2 as ->. done.
    + intros ->. change (String c s) with (String c "" +:+ s).
      constructor; [by apply lang_Lit|by apply IH].
Qed.

Lemma lang_star_class p s : lang (Star (Class p)) s → all_chars p s = true.
Proof.
  intros H. remember (Star (Class p)) as r eqn:Er. revert Er.
  induction H as [| | | | | |r0 s1 s2 H1 _ H2 IH2]; try discriminate.
  - done.
  - intros [= ->]. apply lang_class_inv in H1 as (c & -> & Hc).
    rewrite append_cons, append_nil_l. cbn. rewrite Hc. by apply IH2.
Qed.

Lemma lang_plus_class p s :
  lang (Plus (Class p)) s → s ≠ "" ∧ all_chars p s = true.
Proof.
  unfold Plus. intros (s1 & s2 & -> & H1 & H2)%lang_cat_inv.
  apply lang_class_inv in H1 as (c & -> & Hc).
  apply lang_star_class in H2.
  rewrite append_cons, append_nil_l. split; [done|]. cbn. by rewrite Hc, H2.
Qed.

(** What the default pattern matches in full: a non-empty local part free of
    white space, [@], at most one alphanumeric label with its dot, and
    [rwth-aachen.de]. *)
Lemma lang_EMAIL_VALIDATION_REGEX e :
  lang EMAIL_VALIDATION_REGEX e →
  ∃ local sub,
    e = local +:+ "@" +:+ sub +:+ "rwth-aachen.de"
    ∧ local ≠ "" ∧ all_chars non_space local = true
    ∧ (sub = ""
       ∨ ∃ label, label ≠ "" ∧ all_chars alnum label = true
                  ∧ sub = label +:+ ".").
Proof.
  unfold EMAIL_VALIDATION_REGEX.
  intros (local & s1 & -> & Hlocal & H)%lang_cat_inv.
  apply lang_cat_inv in H as (at_ & s2 & -> & Hat & H).
  apply lang_cat_inv in H as (sub & dom & -> & Hsub & Hdom).
  apply lang_Lit in Hat as ->.
  apply (lang_Str "rwth-aachen.de") in Hdom as ->.
  apply lang_plus_class in Hlocal as [Hne Hns].
  exists local, sub. split; [done|]. split; [done|]. split; [done|].
  apply lang_alt_inv in Hsub as [Hsub|Hsub].
  - right. apply lang_cat_inv in Hsub as (label & dot & -> & Hlabel & Hdot).
    apply lang_Lit in Hdot as ->.
    apply lang_plus_class in Hlabel as [? ?]. by exists label.
  - left. by inversion Hsub.
Qed.

Lemma EMAIL_VALIDATION_REGEX_rwth_aachen e :
  lang EMAIL_VALIDATION_REGEX e → rwth_aachen_address e.
Proof.
  intros (local & sub & -> & Hne & _ & Hsub)%lang_EMAIL_VALIDATION_REGEX.
  destruct Hsub as [->|(label & Hl & Ha & ->)].
  - exists local, "rwth-aachen.de". split; [done|]. split; [done|]. by left.
  - exists local, (label +:+ ".rwth-aachen.de").
    split; [|split; [done|right; by exists label]].
    by rewrite !append_assoc.
Qed.

End email_pattern.

(** ** UserCreationSerializer.validate_email *)

Section validate_email.
Import UserCreationSerializer.

Example validate_email_rwth :
  validate_email models_default db_empty "max.mustermann@rwth-aachen.de"
  = Ok "max.mustermann@rwth-aachen.de".
Proof. vm_compute. reflexivity. Qed.

Example validate_email_subdomain :
  validate_email models_default db_empty "max@cs.rwth-aachen.de"
  = Ok "max@cs.rwth-aachen.de".
Proof. vm_compute. reflexivity. Qed.

Example validate_email_other_domain :
  validate_email models_default db_empty "max@example.com"
  = Raise (ValidationError msg_format).
Proof. vm_compute. reflexivity. Qed.

Example validate_email_suffix_only :
  validate_email models_default db_empty "max@notrwth-aachen.de"
  = Raise (ValidationError msg_format).
Proof. vm_compute. reflexivity. Qed.

Example validate_email_trailing :
  validate_email models_default db_empty "max@rwth-aachen.de.example.com"
  = Raise (ValidationError msg_format).
Proof. vm_compute. reflexivity. Qed.

Lemma validate_email_Ok_inv m s e e' :
  validate_email m s e = Ok e' →
  e' = e ∧ re.lang (email_validation_regex m) e ∧ count_email s e = 0%nat.
Proof.
  unfold validate_email.
  destruct (re.fullmatch (email_validation_regex m) e) as [r|] eqn:E;
    [|discriminate].
  apply fullmatch_Some in E as [Hl Hg].
  rewrite bool_decide_eq_true_2 by done. cbn.
  case_bool_decide as Hc; [discriminate|].
  intros [= <-]. split; [done|]. split; [done|]. lia.
Qed.

(** C4: [validate_email] rejects every e-mail that the pattern of the setting
    [email_validation_regex] does not match in full, and under the default
    pattern only addresses of the rwth-aachen.de domain are accepted. *)
Theorem validate_email_enforces_regex m s e :
  (¬ re.lang (email_validation_regex m) e →
   validate_email m s e = Raise (ValidationError msg_format))
  ∧ (is_Ok (validate_email m s e) → re.lang (email_validation_regex m) e)
  ∧ (email_validation_regex m = EMAIL_VALIDATION_REGEX →
     is_Ok (validate_email m s e) → rwth_aachen_address e).
Proof.
  split; [|split].
  - intros H. apply fullmatch_None in H.
    unfold validate_email. by rewrite H.
  - intros [e' H]. by apply validate_email_Ok_inv in H as (_ & H & _).
  - intros Hm [e' H]. apply validate_email_Ok_inv in H as (_ & H & _).
    rewrite Hm in H. by apply EMAIL_VALIDATION_REGEX_rwth_aachen.
Qed.

Lemma validate_email_enforces_regex_witness :
  validate_email models_default db_empty "max@example.com"
  = Raise (ValidationError msg_format)
  ∧ rwth_aachen_address "max@cs.rwth-aachen.de".
Proof.
  split.
  - apply (proj1 (validate_email_enforces_regex models_default db_empty _)).
    intros H. apply matches_lang in H. vm_compute in H. discriminate H.
  - apply (proj2 (proj2 (validate_email_enforces_regex
                           models_default db_empty _))).
    + reflexivity.
    + exists "max@cs.rwth-aachen.de". vm_compute. reflexivity.
Defined.

End validate_email.

(** ** UserCreationSerializer.create *)

Section create_user.
Import UserCreationSerializer.

Lemma create_user_Ok_inv m v s u s' :
  create_user m v s = (Ok u, s') →
  is_active u = default true (v_is_active v)
  ∧ pk u = fresh_pk s
  ∧ users s' = users s ++ [u]
  ∧ profiles s' = profiles s.
Proof.
  unfold create_user.
  destruct (v_username v) as [name|]; [|discriminate].
  case_bool_decide; [discriminate|].
  case_bool_decide; [discriminate|].
  unfold mbind, M_bind, get, put, raise, mret, M_ret.
  case_bool_decide; [discriminate|].
  intros [= <- <-]. cbn. done.
Qed.

Lemma create_body_Ok_inv m v s u s' :
  create_body m v s = (Ok u, s') →
  is_active u = false
  ∧ users s' = users s ++ [u]
  ∧ ∃ p, v_profile v = Some p
         ∧ profiles s' = profiles s ++ [<["user" := VInt (pk u)]> p].
Proof.
  unfold create_body, pop_profile.
  set (v1 := if bool_decide _ then _ else _).
  assert (Hp : v_profile v1 = v_profile v).
  { subst v1. by case_bool_decide. }
  assert (Ha : v_is_active v1 = Some false).
  { subst v1. by case_bool_decide. }
  clearbody v1. rewrite Hp.
  destruct (v_profile v) as [p|]; [|discriminate].
  unfold mbind at 1, M_bind at 1. unfold mret at 1, M_ret at 1.
  unfold mbind at 1, M_bind at 1.
  destruct (create_user m _ s) as [[u1|e1] s1] eqn:Eu; [|discriminate].
  apply create_user_Ok_inv in Eu as (Hact & _ & Hus & Hps). cbn in Hact.
  rewrite Ha in Hact. cbn in Hact.
  unfold ProfileSerializer_validate, ProfileSerializer_save.
  unfold mbind, M_bind, get, put, raise, mret, M_ret.
  destruct (ProfileSerializer_is_valid m s1 _); [|discriminate].
  intros [= <- <-]. cbn. rewrite Hus, Hps. eauto.
Qed.

(** C7: [create] persists the new user with [is_active] false whatever the
    validated data say, and when anything in it raises, a failed validation
    of the profile data included, the database is as it was before. *)
Theorem create_is_atomic_and_inactive m v s :
  (∀ u s', create m v s = (Ok u, s') →
           is_active u = false ∧ users s' = users s ++ [u])
  ∧ (∀ e s', create m v s = (Raise e, s') → s' = s).
Proof.
  unfold create, atomic. split.
  - intros u s'. destruct (create_body m v s) as [[u1|e1] s1] eqn:E;
      [|discriminate].
    intros [= <- <-]. apply create_body_Ok_inv in E as (? & ? & _). done.
  - intros e s'. destruct (create_body m v s) as [[u1|e1] s1] eqn:E;
      [discriminate|].
    by intros [= _ <-].
Qed.

Example create_alice :
  ∃ u, create models_default alice db_empty
       = (Ok u, {| users := [u];
                   profiles := [<["user" := VInt 1]> (profile_data (VBool true))] |})
       ∧ username u = "alice" ∧ pk u = 1 ∧ is_active u = false.
Proof. eexists. split; [reflexivity|]. done. Qed.

(** Without the decorator the user row would outlive a failed validation of
    the profile. *)
Example create_body_invalid_profile :
  ∃ u, create_body models_default alice_bad_newsletter db_empty
       = (Raise (ValidationError "profile"),
          {| users := [u]; profiles := [] |}).
Proof. eexists. reflexivity. Qed.

Example create_invalid_profile :
  create models_default alice_bad_newsletter db_empty
  = (Raise (ValidationError "profile"), db_empty).
Proof. reflexivity. Qed.

Lemma create_is_atomic_and_inactive_witness :
  (∃ u s', create models_default alice db_empty = (Ok u, s')
           ∧ is_active u = false ∧ users s' = [u])
  ∧ snd (create models_default alice_bad_newsletter db_empty) = db_empty.
Proof.
  split.
  - eexists _, _. split; [reflexivity|].
    apply (proj1 (create_is_atomic_and_inactive models_default alice db_empty)).
    reflexivity.
  - apply (proj2 (create_is_atomic_and_inactive
                    models_default alice_bad_newsletter db_empty)
             (ValidationError "profile")).
    reflexivity.
Defined.

End create_user.

(** ** RentalSerializer *)

Section rental.
Import RentalSerializer.

Lemma represent_fields_agree c fs r1 r2 :
  (∀ f, f ∈ fs → r1 !! f = r2 !! f) →
  represent_fields c fs r1 = represent_fields c fs r2.
Proof.
  induction fs as [|f fs IH]; intros H; cbn; [done|].
  rewrite (H f) by set_solver.
  rewrite IH; [done|]. intros g Hg. apply H. set_solver.
Qed.

Lemma pop_Ok_inv name s s' :
  pop name s = Ok s' → fields s' = filter (λ f, f ≠ name) (fields s).
Proof. unfold pop. case_bool_decide; [|discriminate]. by intros [= <-]. Qed.

Lemma init_hidden_fields c kw self :
  hides kw = true → init c kw = Ok self →
  fields self
  = filter (λ f, f ≠ "lender")
      (filter (λ f, f ≠ "return_processor") (model_fields c)).
Proof.
  intros Hh. unfold init. rewrite Hh.
  destruct (pop "return_processor" _) as [s1|e] eqn:E1; [|discriminate].
  cbn. intros E2. apply pop_Ok_inv in E1, E2. by rewrite E2, E1.
Qed.

Lemma hides_iff kw :
  hides kw = true ↔
  get_request kw = None
  ∨ ∃ r, get_request kw = Some r ∧ is_staff (user r) = false.
Proof.
  unfold hides. destruct (get_request kw) as [r|].
  - rewrite negb_true_iff. split; [eauto|].
    intros [?|(r' & [= <-] & ?)]; done.
  - split; [by left|done].
Qed.

Example member_view :
  serialize rental_meta member_request (rental "bob" "carol")
  = Ok [("id", VInt 7); ("reservation", VInt 3)].
Proof. reflexivity. Qed.

Example anonymous_view :
  serialize rental_meta no_context (rental "bob" "carol")
  = Ok [("id", VInt 7); ("reservation", VInt 3)].
Proof. reflexivity. Qed.

Example staff_view :
  serialize rental_meta staff_request (rental "bob" "carol")
  = Ok [("id", VInt 7); ("return_processor", VStr "bob");
        ("lender", VStr "carol"); ("reservation", VInt 3)].
Proof. reflexivity. Qed.

(** C8: when the request is absent or its user is not staff, the serializer
    has neither the field [return_processor] nor the field [lender], and two
    rentals that differ at most in these two attributes are serialized to the
    same output. *)
Theorem serialize_hides_staff_fields c kw :
  (get_request kw = None
   ∨ ∃ r, get_request kw = Some r ∧ is_staff (user r) = false) →
  (∀ self, init c kw = Ok self →
           ("return_processor" ∉ fields self) ∧ ("lender" ∉ fields self))
  ∧ (∀ r1 r2,
       (∀ f, f ≠ "return_processor" → f ≠ "lender" → r1 !! f = r2 !! f) →
       serialize c kw r1 = serialize c kw r2).
Proof.
  intros Hh%hides_iff. split.
  - intros self Hi. rewrite (init_hidden_fields _ _ _ Hh Hi).
    rewrite !list_elem_of_filter. split.
    + intros (_ & Hn & _). by apply Hn.
    + intros (Hn & _). by apply Hn.
  - intros r1 r2 Hr. unfold serialize.
    destruct (init c kw) as [self|e] eqn:Hi; [|done]. cbn.
    unfold to_representation. apply represent_fields_agree.
    intros f. rewrite (init_hidden_fields _ _ _ Hh Hi).
    rewrite !list_elem_of_filter. intros [? [? _]]. by apply Hr.
Qed.

Lemma serialize_hides_staff_fields_witness :
  ("lender" ∉ fields {| fields := ["id"; "reservation"] |})
  ∧ serialize rental_meta member_request (rental "bob" "carol")
    = serialize rental_meta member_request (rental "dave" "erin").
Proof.
  pose proof (serialize_hides_staff_fields rental_meta member_request
                (or_intror (ex_intro _ {| user := {| is_staff := false |} |}
                              (conj eq_refl eq_refl)))) as [Hf Hs].
  split.
  - exact (proj2 (Hf {| fields := ["id"; "reservation"] |} eq_refl)).
  - apply Hs. intros f H1 H2. unfold rental.
    rewrite !lookup_insert. repeat case_decide; subst; done.
Defined.

End rental.

(** * Further properties *)

(** ** BulkReservationSerializer.validate *)

Section BulkReservation_more.
Import BulkReservationSerializer.

Lemma isoweekday_mod x :
  datetime.isoweekday x mod 7 = datetime.toordinal x mod 7.
Proof.
  unfold datetime.isoweekday.
  destruct (Z.eqb_spec (datetime.toordinal x mod 7) 0) as [E|_].
  - by rewrite E.
  - apply Z.mod_mod. lia.
Qed.

(** An accepted reservation has a positive span of at most the maximum rent
    duration plus seven days. *)
Theorem validate_Ok_span_bounds m d :
  is_Ok (validate m d) →
  0 < timedelta.to_microseconds (span d)
    <= timedelta.to_microseconds (max_rent m d) + 7 * timedelta.us_per_day.
Proof.
  intros [d' H]. apply validate_Ok_inv in H as (_ & Hd & _ & _ & Ho & _).
  unfold exceeds_duration, timedelta.ltb in Hd. apply Z.ltb_ge in Hd.
  unfold not_ordered, datetime.geb in Ho. apply Z.leb_gt in Ho.
  unfold span, max_rent, datetime.sub. cbn in *. lia.
Qed.

Lemma validate_Ok_span_bounds_witness :
  0 < timedelta.to_microseconds (span two_weeks)
    <= timedelta.to_microseconds (max_rent models_one_week two_weeks)
       + 7 * timedelta.us_per_day.
Proof.
  apply (validate_Ok_span_bounds models_one_week two_weeks).
  by exists two_weeks.
Defined.



(** The days of an accepted reservation are as many days apart, modulo
    seven, as the returning day is after the lending day; with the same day
    for both, a whole number of weeks. *)
Theorem validate_Ok_whole_weeks m d :
  is_Ok (validate m d) →
  (datetime.toordinal (reserved_until d)
   - datetime.toordinal (reserved_from d)) mod 7
  = (setting_int m "returning_day" - setting_int m "lenting_day") mod 7.
Proof.
  intros [d' Hok]. apply validate_Ok_inv in Hok as (_&_&Hl&Hr&_).
  unfold not_lenting_day in Hl. unfold not_returning_day in Hr.
  apply negb_false_iff, Z.eqb_eq in Hl.
  apply negb_false_iff, Z.eqb_eq in Hr.
  rewrite <-Hl, <-Hr.
  rewrite (Zminus_mod (datetime.isoweekday _)), !isoweekday_mod.
  by rewrite <-Zminus_mod.
Qed.

Lemma validate_Ok_whole_weeks_witness :
  (datetime.toordinal (reserved_until two_weeks)
   - datetime.toordinal (reserved_from two_weeks)) mod 7 = 0.
Proof.
  apply (validate_Ok_whole_weeks models_one_week two_weeks).
  by exists two_weeks.
Defined.



(** Asking for fewer objects keeps a reservation valid. *)
Theorem validate_fewer_objects m d n :
  is_Ok (validate m d) → n <= count d →
  validate m (with_count n d) = Ok (with_count n d).
Proof.
  intros [d' H] Hn. apply validate_Ok_inv in H as (_&E1&E2&E3&E4&E5).
  unfold exceeds_available in E5. apply Z.ltb_ge in E5.
  unfold validate.
  change (exceeds_duration m (with_count n d)) with (exceeds_duration m d).
  change (not_lenting_day m (with_count n d)) with (not_lenting_day m d).
  change (not_returning_day m (with_count n d)) with (not_returning_day m d).
  change (not_ordered (with_count n d)) with (not_ordered d).
  rewrite E1, E2, E3, E4.
  unfold exceeds_available; cbn.
  destruct (Z.ltb_spec
    (available m (objecttype d) (reserved_from d) (reserved_until d)) n);
    [lia|done].
Qed.

Lemma validate_fewer_objects_witness :
  validate models_one_week (with_count 0 two_weeks) = Ok (with_count 0 two_weeks).
Proof.
  apply (validate_fewer_objects models_one_week two_weeks 0).
  - by exists two_weeks.
  - cbn. lia.
Defined.

End BulkReservation_more.

(** ** The default e-mail pattern, in full *)

Section email_pattern_more.
Import re.

Lemma all_chars_app p s1 s2 :
  all_chars p (s1 +:+ s2) = all_chars p s1 && all_chars p s2.
Proof.
  induction s1 as [|c s1 IH]; [done|].
  rewrite append_cons. cbn. by rewrite IH, andb_assoc.
Qed.

Lemma lang_star_of_all_chars p s :
  all_chars p s = true → lang (Star (Class p)) s.
Proof.
  induction s as [|c s IH]; cbn; [constructor|].
  intros [Hc Hs]%andb_true_iff.
  change (String c s) with (String c "" +:+ s).
  constructor; [by constructor|by apply IH].
Qed.

Lemma lang_plus_of_all_chars p s :
  s ≠ "" → all_chars p s = true → lang (Plus (Class p)) s.
Proof.
  destruct s as [|c s]; [done|]. cbn. intros _ [Hc Hs]%andb_true_iff.
  change (String c s) with (String c "" +:+ s).
  constructor; [by constructor|by apply lang_star_of_all_chars].
Qed.

Lemma alnum_non_space c : alnum c = true → non_space c = true.
Proof.
  destruct c as [[] [] [] [] [] [] [] []]; vm_compute; congruence.
Qed.

Lemma all_chars_impl (p q : ascii → bool) s :
  (∀ c, p c = true → q c = true) → all_chars p s = true → all_chars q s = true.
Proof.
  intros Hpq. induction s as [|c s IH]; cbn; [done|].
  intros [Hc Hs]%andb_true_iff. by rewrite (Hpq c Hc), IH.
Qed.

(** The default pattern matches exactly the strings made of a non-empty
    local part without white space, [@], at most one alphanumeric label with
    its dot, and [rwth-aachen.de]. *)
Theorem EMAIL_VALIDATION_REGEX_matches_iff e :
  matches EMAIL_VALIDATION_REGEX e = true
  ↔ ∃ local sub,
      e = local +:+ "@" +:+ sub +:+ "rwth-aachen.de"
      ∧ local ≠ "" ∧ all_chars non_space local = true
      ∧ (sub = ""
         ∨ ∃ label, label ≠ "" ∧ all_chars alnum label = true
                    ∧ sub = label +:+ ".").
Proof.
  rewrite matches_lang. split; [apply lang_EMAIL_VALIDATION_REGEX|].
  intros (local & sub & -> & Hne & Hns & Hsub).
  unfold EMAIL_VALIDATION_REGEX.
  constructor; [by apply lang_plus_of_all_chars|].
  change ("@" +:+ sub +:+ "rwth-aachen.de")
    with (String "@" "" +:+ (sub +:+ "rwth-aachen.de")).
  constructor; [by apply lang_Lit|].
  constructor; [|by apply lang_Str].
  destruct Hsub as [->|(label & Hl & Ha & ->)].
  - apply lang_alt_r. constructor.
  - apply lang_alt_l. constructor; [by apply lang_plus_of_all_chars|].
    by apply lang_Lit.
Qed.

Lemma EMAIL_VALIDATION_REGEX_matches_iff_witness :
  matches EMAIL_VALIDATION_REGEX "erika.musterfrau@informatik.rwth-aachen.de"
  = true.
Proof.
  apply (proj2 (EMAIL_VALIDATION_REGEX_matches_iff _)).
  exists "erika.musterfrau", "informatik.". split; [reflexivity|].
  split; [done|]. split; [reflexivity|].
  right. exists "informatik". split; [done|]. split; reflexivity.
Defined.

(** No string the default pattern matches holds a white-space character,
    and every one holds an [@]. *)
Theorem EMAIL_VALIDATION_REGEX_no_space e :
  matches EMAIL_VALIDATION_REGEX e = true →
  all_chars non_space e = true ∧ all_chars (λ c, negb (Ascii.eqb c "@")) e = false.
Proof.
  intros (local & sub & -> & Hne & Hns & Hsub)%matches_lang
         %lang_EMAIL_VALIDATION_REGEX.
  rewrite !all_chars_app. split.
  - rewrite Hns. cbn [andb].
    change (all_chars non_space "@") with true. cbn [andb].
    change (all_chars non_space "rwth-aachen.de") with true.
    rewrite andb_true_r.
    destruct Hsub as [->|(label & _ & Ha & ->)]; [done|].
    rewrite all_chars_app.
    rewrite (all_chars_impl _ _ _ alnum_non_space Ha). done.
  - change (all_chars _ "@") with false.
    by rewrite andb_false_r.
Qed.

Lemma EMAIL_VALIDATION_REGEX_no_space_witness :
  all_chars non_space "max@cs.rwth-aachen.de" = true.
Proof.
  apply (EMAIL_VALIDATION_REGEX_no_space "max@cs.rwth-aachen.de").
  reflexivity.
Defined.

End email_pattern_more.

(** ** UserCreationSerializer.validate_email *)

Section validate_email_more.
Import UserCreationSerializer.

Lemma count_email_zero s e :
  count_email s e = 0%nat ↔ ∀ u, u ∈ users s → email u ≠ e.
Proof.
  unfold count_email. induction (users s) as [|u us IH].
  - split; [|done]. intros _ u Hu. by apply elem_of_nil in Hu.
  - rewrite filter_cons. destruct (decide (email u = e)) as [E|E]; cbn.
    + split; [done|]. intros H. exfalso. apply (H u); [left|done].
    + rewrite IH. split.
      * intros H u' [->|Hu']%elem_of_cons; [done|by apply H].
      * intros H u' Hu'. apply H. by right.
Qed.

(** The three outcomes of [validate_email]: the e-mail itself when the
    pattern matches it in full and no user has it; the error of use when the
    pattern matches and a user has it; the error of format when the pattern
    does not match, whether a user has it or not. *)
Theorem validate_email_outcomes m s e :
  (validate_email m s e = Ok e
   ↔ re.matches (email_validation_regex m) e = true
     ∧ ∀ u, u ∈ users s → email u ≠ e)
  ∧ (validate_email m s e = Raise (ValidationError msg_in_use)
     ↔ re.matches (email_validation_regex m) e = true
       ∧ ∃ u, u ∈ users s ∧ email u = e)
  ∧ (validate_email m s e = Raise (ValidationError msg_format)
     ↔ re.matches (email_validation_regex m) e = false)
  ∧ (∀ e', validate_email m s e = Ok e' → e' = e).
Proof.
  assert (Hex : (0 < count_email s e)%nat ↔ ∃ u, u ∈ users s ∧ email u = e).
  { destruct (decide (count_email s e = 0%nat)) as [E|E].
    - split; [lia|]. intros (u & Hu & He). exfalso.
      by apply (proj1 (count_email_zero s e) E u).
    - split; [|lia]. intros _.
      unfold count_email in E.
      destruct (filter _ (users s)) as [|u us] eqn:F; [done|].
      assert (Hu : u ∈ filter (λ u, email u = e) (users s))
        by (rewrite F; left).
      apply list_elem_of_filter in Hu as [? ?]. by exists u. }
  unfold validate_email, re.fullmatch.
  destruct (re.matches (email_validation_regex m) e); cbn.
  - rewrite bool_decide_eq_true_2 by done. cbn.
    case_bool_decide as Hc.
    + split; [|split; [|split]].
      * split; [discriminate|].
        intros [_ H]. apply Hex in Hc as (u & Hu & He). by destruct (H u).
      * split; [|done]. intros _. split; [done|]. by apply Hex.
      * split; discriminate.
      * discriminate.
    + split; [|split; [|split]].
      * split; [|done]. intros _. split; [done|].
        intros u Hu He. apply Hc, Hex. by exists u.
      * split; [discriminate|]. intros [_ H]. by apply Hex in H.
      * split; discriminate.
      * by intros e' [= <-].
  - split; [|split; [|split]].
    + split; [discriminate|]. by intros [? _].
    + split; [discriminate|]. by intros [? _].
    + done.
    + discriminate.
Qed.

Lemma validate_email_outcomes_witness :
  validate_email models_default db_empty "max@rwth-aachen.de"
  = Ok "max@rwth-aachen.de".
Proof.
  apply (proj2 (proj1 (validate_email_outcomes
                         models_default db_empty "max@rwth-aachen.de"))).
  split; [reflexivity|]. intros u Hu. by apply elem_of_nil in Hu.
Defined.

(** Once [create] has stored a user, [validate_email] no longer accepts the
    e-mail that user was stored with. *)
Theorem create_then_validate_email m v s u s' :
  create m v s = (Ok u, s') → ¬ is_Ok (validate_email m s' (email u)).
Proof.
  unfold create, atomic.
  destruct (create_body m v s) as [[u1|e1] s1] eqn:E; [|discriminate].
  intros [= <- <-]. apply create_body_Ok_inv in E as (_ & Hus & _).
  intros [e' H]. unfold validate_email in H.
  destruct (negb _); [discriminate|].
  case_bool_decide as Hc; [discriminate|]. apply Hc.
  unfold count_email. rewrite Hus, filter_app, length_app.
  rewrite filter_cons. rewrite decide_True by done. cbn. lia.
Qed.

Lemma create_then_validate_email_witness :
  ¬ is_Ok (validate_email models_default
             (snd (create models_default alice db_empty))
             "alice@rwth-aachen.de").
Proof.
  apply (create_then_validate_email models_default alice db_empty
           {| pk := 1; username := "alice";
              password := "pbkdf2_sha256$secret";
              email := "alice@rwth-aachen.de"; first_name := "Alice";
              last_name := ""; is_active := false; is_staff := false;
              is_superuser := false |}).
  reflexivity.
Defined.

End validate_email_more.

(** ** UserCreationSerializer.create, further *)

Section create_user_more.
Import UserCreationSerializer.

(** Without the key [profile] the creation raises [KeyError] before the user
    table is touched, whatever else the validated data hold. *)
Theorem create_without_profile m v s :
  v_profile v = None → create m v s = (Raise (KeyError "profile"), s).
Proof.
  intros H. unfold create, atomic, create_body, pop_profile.
  set (v1 := if bool_decide _ then _ else _).
  assert (Hp : v_profile v1 = None).
  { subst v1. by case_bool_decide. }
  clearbody v1. by rewrite Hp.
Qed.

Lemma create_without_profile_witness :
  create models_default
    {| v_username := Some "alice"; v_password := None; v_email := None;
       v_first_name := None; v_last_name := None; v_is_active := None;
       v_groups := None; v_profile := None |} db_empty
  = (Raise (KeyError "profile"), db_empty).
Proof. apply create_without_profile. reflexivity. Defined.

(** What the validated data hold under [groups] and under [is_active] has no
    effect on the creation. *)
Theorem create_ignores_groups_and_is_active m v s g b :
  create m (set_groups g (set_is_active b v)) s = create m v s.
Proof.
  unfold create, atomic, create_body.
  set (v1 := if bool_decide _ then _ else _).
  set (v2 := if bool_decide _ then _ else _).
  assert (E : v1 = v2); [|clearbody v1 v2; by subst].
  subst v1 v2. destruct v as [un pw em fn ln ia gr pr].
  unfold set_groups, set_is_active, del_groups; cbn.
  destruct g as [g|], gr as [gr|]; reflexivity.
Qed.

(** A successful creation adds one profile: the supplied profile data with
    the primary key of the new user under the key [user], in place of
    whatever was supplied under that key. *)
Theorem create_profile_of_new_user m v s u s' :
  create m v s = (Ok u, s') →
  ∃ p p', v_profile v = Some p
          ∧ profiles s' = profiles s ++ [p']
          ∧ p' !! "user" = Some (VInt (pk u))
          ∧ (∀ k, k ≠ "user" → p' !! k = p !! k)
          ∧ pk u ∉ pk <$> users s.
Proof.
  unfold create, atomic.
  destruct (create_body m v s) as [[u1|e1] s1] eqn:E; [|discriminate].
  intros [= <- <-].
  pose proof E as E'. apply create_body_Ok_inv in E as (_ & _ & p & Hp & Hps).
  exists p, (<["user" := VInt (pk u1)]> p).
  split; [done|]. split; [done|].
  split; [apply lookup_insert_eq|].
  split; [intros k Hk; by apply lookup_insert_ne|].
  assert (Hpk : pk u1 = fresh_pk s).
  { revert E'. unfold create_body, pop_profile.
    set (v1 := if bool_decide _ then _ else _). clearbody v1.
    destruct (v_profile v1); [|discriminate].
    unfold mbind at 1, M_bind at 1. unfold mret at 1, M_ret at 1.
    unfold mbind at 1, M_bind at 1.
    destruct (create_user m _ s) as [[u2|e2] s2] eqn:Eu; [|discriminate].
    apply create_user_Ok_inv in Eu as (_ & Hpk & _).
    unfold ProfileSerializer_validate, ProfileSerializer_save.
    unfold mbind, M_bind, get, put, raise, mret, M_ret.
    destruct (ProfileSerializer_is_valid m s2 _); [|discriminate].
    by intros [= <- _]. }
  rewrite Hpk. unfold fresh_pk.
  intros Hin. 
  assert (Hle : ∀ (l : list Z) x, x ∈ l → x <= foldr Z.max 0 l).
  { induction l as [|y l IH]; intros x Hx; [by apply elem_of_nil in Hx|].
    cbn. apply elem_of_cons in Hx as [->|Hx]; [lia|].
    specialize (IH x Hx). lia. }
  apply Hle in Hin. lia.
Qed.

Lemma create_profile_of_new_user_witness :
  ∃ p p', v_profile alice = Some p
          ∧ profiles (snd (create models_default alice db_empty)) = [p']
          ∧ p' !! "user" = Some (VInt 1).
Proof.
  destruct (create_profile_of_new_user models_default alice db_empty
              {| pk := 1; username := "alice";
                 password := "pbkdf2_sha256$secret";
                 email := "alice@rwth-aachen.de"; first_name := "Alice";
                 last_name := ""; is_active := false; is_staff := false;
                 is_superuser := false |}
              (snd (create models_default alice db_empty)) eq_refl)
    as (p & p' & H1 & H2 & H3 & _).
  by exists p, p'.
Defined.

End create_user_more.

(** ** UserSerializer *)

Section user_serializer.
Import UserCreationSerializer UserSerializer.

Lemma save_Ok_profiles u s s' :
  save u s = (Ok tt, s') → profiles s' = profiles s.
Proof.
  unfold save, mbind, M_bind, get, put, raise.
  repeat case_bool_decide; try discriminate; by intros [= <-].
Qed.

Lemma save_Raise u s e s' : save u s = (Raise e, s') → s' = s.
Proof.
  unfold save, mbind, M_bind, get, put, raise.
  repeat case_bool_decide; try discriminate; by intros [= _ <-].
Qed.

(** [update] changes the user name and the e-mail only: each becomes the
    value in the validated data, or stays when the key is absent, and every
    other attribute of the returned user is the one of the instance, whatever
    the validated data hold for it. *)
Theorem update_sets_username_and_email_only m inst v s u s' :
  update m inst v s = (Ok u, s') →
  username u = default (username inst) (v_username v)
  ∧ email u = default (email inst) (v_email v)
  ∧ pk u = pk inst
  ∧ first_name u = first_name inst
  ∧ last_name u = last_name inst
  ∧ password u = password inst
  ∧ is_active u = is_active inst
  ∧ is_staff u = is_staff inst
  ∧ is_superuser u = is_superuser inst.
Proof.
  unfold update. set (inst' := set_username_email _ _ _).
  unfold mbind at 1, M_bind at 1.
  destruct (save inst' s) as [[[]|e] s1]; [|discriminate].
  assert (G : u = inst' → 
    username u = default (username inst) (v_username v)
    ∧ email u = default (email inst) (v_email v)
    ∧ pk u = pk inst ∧ first_name u = first_name inst
    ∧ last_name u = last_name inst ∧ password u = password inst
    ∧ is_active u = is_active inst ∧ is_staff u = is_staff inst
    ∧ is_superuser u = is_superuser inst).
  { intros ->. subst inst'. cbn. done. }
  destruct (v_profile v) as [pd|].
  - unfold mbind, M_bind, get.
    destruct (profile_of inst' s1) as [p|].
    + destruct (ProfileSerializer_update m p pd s1) as [[[]|e] s2];
        [|discriminate].
      intros [= <- _]. by apply G.
    + intros [= <- _]. by apply G.
  - intros [= <- _]. by apply G.
Qed.

Lemma update_sets_username_and_email_only_witness :
  ∃ u s', update models_plain alice_row new_email db_empty = (Ok u, s')
          ∧ username u = "alice" ∧ email u = "a@rwth-aachen.de"
          ∧ first_name u = "Alice".
Proof.
  eexists _, _. split; [reflexivity|].
  pose proof (update_sets_username_and_email_only
                models_plain alice_row new_email db_empty _ _ eq_refl)
    as (H1 & H2 & _ & H3 & _).
  split; [exact H1|]. split; [exact H2|exact H3].
Defined.

(** Without the key [profile], or for a user without a profile, [update]
    saves the user and stops: no profile is written and
    [ProfileSerializer.update] is not called. *)
Theorem update_without_profile m inst v s :
  let inst' := set_username_email (default (username inst) (v_username v))
                 (default (email inst) (v_email v)) inst in
  v_profile v = None
  ∨ (∀ p, p ∈ profiles s → p !! "user" ≠ Some (VInt (pk inst))) →
  update m inst v s
  = match save inst' s with
    | (Ok _, s') => (Ok inst', s')
    | (Raise e, s') => (Raise e, s')
    end
  ∧ profiles (snd (update m inst v s)) = profiles s.
Proof.
  intros inst' H.
  assert (E : update m inst v s
    = match save inst' s with
      | (Ok _, s') => (Ok inst', s')
      | (Raise e, s') => (Raise e, s')
      end).
  { unfold update. fold inst'. unfold mbind at 1, M_bind at 1.
    destruct (save inst' s) as [[[]|e] s1] eqn:Es; [|done].
    destruct (v_profile v) as [pd|] eqn:Ev; [|done].
    destruct H as [H|H]; [done|].
    unfold mbind, M_bind, get.
    assert (Hn : profile_of inst' s1 = None); [|by rewrite Hn].
    unfold profile_of. rewrite (save_Ok_profiles _ _ _ Es).
    destruct (filter _ (profiles s)) as [|p ps] eqn:F; [done|].
    assert (Hp : p ∈ filter (λ p, p !! "user" = Some (VInt (pk inst')))
                   (profiles s)) by (rewrite F; left).
    apply list_elem_of_filter in Hp as [Hp1 Hp2]. by destruct (H p Hp2). }
  split; [exact E|]. rewrite E.
  destruct (save inst' s) as [[[]|e] s1] eqn:Es; cbn.
  - by apply save_Ok_profiles in Es.
  - by apply save_Raise in Es as ->.
Qed.

Lemma update_without_profile_witness :
  profiles (snd (update models_plain alice_row alice db_empty)) = [].
Proof.
  apply (update_without_profile models_plain alice_row alice db_empty).
  right. intros p Hp. by apply elem_of_nil in Hp.
Defined.

(** [create] runs in no transaction: when the profile data hold the key
    [user], the call that creates the profile raises [TypeError], and the
    user inserted just before stays in the table.  Without the key [profile]
    nothing is inserted. *)
Theorem create_keeps_user_on_profile_error m v s p :
  v_profile v = Some p → is_Some (p !! "user") →
  v_groups v = None → default "" (v_username v) ∉ username <$> users s →
  ∃ u, create m v s
       = (Raise (TypeError
            "create() got multiple values for keyword argument 'user'"),
          {| users := users s ++ [u]; profiles := profiles s |})
       ∧ username u = default "" (v_username v).
Proof.
  intros Hp Hu Hg Hn. unfold create, pop_profile, UserCreationSerializer.pop_profile.
  rewrite Hp. unfold mbind at 1, M_bind at 1. unfold mret at 1, M_ret at 1.
  unfold User_objects_create. cbn [v_groups v_profile v_username].
  rewrite Hg. rewrite bool_decide_eq_false_2
    by (intros [[? ?]|[? ?]]; discriminate).
  unfold mbind, M_bind, get, put, raise, mret, M_ret.
  rewrite bool_decide_eq_false_2 by done.
  unfold Profile_create. rewrite bool_decide_eq_true_2 by done.
  eexists. split; [reflexivity|done].
Qed.

Lemma create_keeps_user_on_profile_error_witness :
  ∃ u, create models_plain bob_with_user db_empty
       = (Raise (TypeError
            "create() got multiple values for keyword argument 'user'"),
          {| users := [u]; profiles := [] |})
       ∧ username u = "bob".
Proof.
  apply (create_keeps_user_on_profile_error models_plain bob_with_user
           db_empty (<["user" := VInt 9]> ∅)).
  - reflexivity.
  - by exists (VInt 9).
  - reflexivity.
  - cbn. apply not_elem_of_nil.
Defined.

(** [create] does not drop the key [groups] as the registration does: with
    groups in the validated data the user is never created. *)
Theorem create_with_groups_fails m v s :
  is_Some (v_groups v) →
  ∃ e, create m v s = (Raise e, s).
Proof.
  intros Hg. unfold create, pop_profile, UserCreationSerializer.pop_profile.
  destruct (v_profile v) as [p|]; [|by eexists].
  unfold mbind at 1, M_bind at 1. unfold mret at 1, M_ret at 1.
  unfold User_objects_create. cbn [v_groups v_profile].
  rewrite bool_decide_eq_true_2 by (by left).
  by eexists.
Qed.

Lemma create_with_groups_fails_witness :
  ∃ e, create models_plain alice db_empty = (Raise e, db_empty).
Proof. apply create_with_groups_fails. by eexists. Defined.

End user_serializer.

(** ** RentalSerializer, further *)

Section rental_more.
Import RentalSerializer.

Lemma represent_fields_keys c fs inst out :
  represent_fields c fs inst = Ok out → out.*1 = fs.
Proof.
  revert out. induction fs as [|f fs IH]; intros out; cbn.
  - by intros [= <-].
  - destruct (inst !! f) as [a|]; [|discriminate].
    destruct (represent_fields c fs inst) as [rest|e]; [|discriminate].
    cbn. intros [= <-]. cbn. f_equal. by apply IH.
Qed.

Lemma represent_fields_cons c f fs inst :
  represent_fields c (f :: fs) inst
  = match inst !! f with
    | None => Raise (AttributeError f)
    | Some attribute =>
        rest ← represent_fields c fs inst;
        Ok ((f, match attribute with
                | VNone => VNone
                | _ => represent c f attribute
                end) :: rest)
    end.
Proof. reflexivity. Qed.

Lemma represent_fields_filter c (name : string) fs inst out :
  represent_fields c fs inst = Ok out →
  represent_fields c (filter (λ f, f ≠ name) fs) inst
  = Ok (filter (λ kv, kv.1 ≠ name) out).
Proof.
  revert out. induction fs as [|f fs IH]; intros out H.
  - injection H as <-. reflexivity.
  - rewrite represent_fields_cons in H.
    destruct (inst !! f) as [a|] eqn:Ea; [|discriminate].
    destruct (represent_fields c fs inst) as [rest|e]; [|discriminate].
    injection H as <-. specialize (IH rest eq_refl).
    rewrite !filter_cons.
    destruct (decide (f ≠ name)) as [Hf|Hf].
    + rewrite decide_True by done.
      by rewrite represent_fields_cons, Ea, IH.
    + by rewrite decide_False by done.
Qed.

(** The keys of the output are the fields of the serializer, in their order:
    all fields of the model for a staff request, and all but
    [return_processor] and [lender] otherwise. *)
Theorem serialize_keys c kw inst out :
  serialize c kw inst = Ok out →
  out.*1 = (if hides kw
            then filter (λ f, f ≠ "lender")
                   (filter (λ f, f ≠ "return_processor") (model_fields c))
            else model_fields c)
  ∧ (hides kw = true →
     ("return_processor" ∉ out.*1) ∧ ("lender" ∉ out.*1)).
Proof.
  unfold serialize. destruct (init c kw) as [self|e] eqn:Hi; [|discriminate].
  cbn. unfold to_representation. intros ->%represent_fields_keys.
  destruct (hides kw) eqn:Hh.
  - rewrite (init_hidden_fields _ _ _ Hh Hi). split; [done|]. intros _.
    rewrite !list_elem_of_filter. split.
    + intros (_ & Hn & _). by apply Hn.
    + intros (Hn & _). by apply Hn.
  - unfold init in Hi. rewrite Hh in Hi. injection Hi as <-.
    split; [done|discriminate].
Qed.

Lemma serialize_keys_witness :
  "lender" ∉ [("id", VInt 7); ("reservation", VInt 3)].*1.
Proof.
  apply (serialize_keys rental_meta no_context (rental "bob" "carol")
           [("id", VInt 7); ("reservation", VInt 3)] eq_refl).
  reflexivity.
Defined.

(** What a requester who is not staff gets is what staff gets for the same
    rental, without the entries [return_processor] and [lender]. *)
Theorem serialize_member_is_filtered_staff c kw_staff kw inst out :
  hides kw_staff = false → hides kw = true →
  "return_processor" ∈ model_fields c → "lender" ∈ model_fields c →
  serialize c kw_staff inst = Ok out →
  serialize c kw inst
  = Ok (filter (λ kv, kv.1 ≠ "lender")
          (filter (λ kv, kv.1 ≠ "return_processor") out)).
Proof.
  intros Hs Hh Hr Hl. unfold serialize, init. rewrite Hs, Hh. cbn.
  unfold to_representation. cbn. intros Hout.
  unfold pop at 2. cbn. rewrite bool_decide_eq_true_2 by done. cbn.
  unfold pop. cbn. rewrite bool_decide_eq_true_2
    by (apply list_elem_of_filter; split; [done|exact Hl]).
  cbn. by do 2 apply represent_fields_filter.
Qed.

Lemma serialize_member_is_filtered_staff_witness :
  serialize rental_meta member_request (rental "bob" "carol")
  = Ok [("id", VInt 7); ("reservation", VInt 3)].
Proof.
  apply (serialize_member_is_filtered_staff rental_meta staff_request
           member_request (rental "bob" "carol")
           [("id", VInt 7); ("return_processor", VStr "bob");
            ("lender", VStr "carol"); ("reservation", VInt 3)]).
  - reflexivity.
  - reflexivity.
  - cbn. set_solver.
  - cbn. set_solver.
  - reflexivity.
Defined.

(** Building the serializer never fails for staff.  For anyone else it fails
    exactly when the model lacks one of the two fields, with the [KeyError]
    of the first one that is missing. *)
Theorem init_outcomes c kw :
  (hides kw = false → init c kw = Ok {| fields := model_fields c |})
  ∧ (hides kw = true →
     (init c kw = Raise (KeyError "return_processor")
      ↔ "return_processor" ∉ model_fields c)
     ∧ (init c kw = Raise (KeyError "lender")
        ↔ "return_processor" ∈ model_fields c ∧ "lender" ∉ model_fields c)
     ∧ (is_Ok (init c kw)
        ↔ "return_processor" ∈ model_fields c ∧ "lender" ∈ model_fields c)).
Proof.
  split; intros Hh; unfold init; rewrite Hh; [done|].
  assert (Hl : "lender" ∈ filter (λ f, f ≠ "return_processor")
                 (model_fields c) ↔ "lender" ∈ model_fields c).
  { rewrite list_elem_of_filter. split; [by intros [_ ?]|done]. }
  destruct (decide ("return_processor" ∈ model_fields c)) as [Hr|Hr];
    [destruct (decide ("lender" ∈ model_fields c)) as [Hl'|Hl']|].
  - assert (E : (self ← pop "return_processor" {| fields := model_fields c |};
                 pop "lender" self)
                = Ok {| fields := filter (λ f, f ≠ "lender")
                          (filter (λ f, f ≠ "return_processor")
                             (model_fields c)) |}).
    { unfold pop at 2. cbn [fields]. rewrite bool_decide_eq_true_2 by done.
      unfold mbind, result_bind, pop. cbn [fields].
      by rewrite bool_decide_eq_true_2 by (by apply Hl). }
    rewrite E. split; [split; [discriminate|done]|].
    split; [split; [discriminate|tauto]|].
    split; [done|]. intros _. by eexists.
  - assert (E : (self ← pop "return_processor" {| fields := model_fields c |};
                 pop "lender" self) = Raise (KeyError "lender")).
    { unfold pop at 2. cbn [fields]. rewrite bool_decide_eq_true_2 by done.
      unfold mbind, result_bind, pop. cbn [fields].
      by rewrite bool_decide_eq_false_2 by (by rewrite Hl). }
    rewrite E. split; [split; [discriminate|done]|].
    split; [done|].
    split; [intros [? ?]; discriminate|tauto].
  - assert (E : (self ← pop "return_processor" {| fields := model_fields c |};
                 pop "lender" self) = Raise (KeyError "return_processor")).
    { unfold pop at 2. cbn [fields].
      by rewrite bool_decide_eq_false_2 by done. }
    rewrite E. split; [done|].
    split; [split; [discriminate|tauto]|].
    split; [intros [? ?]; discriminate|tauto].
Qed.

Lemma init_outcomes_witness :
  init {| model_fields := ["id"; "return_processor"];
          represent := λ _ v, v |} no_context
  = Raise (KeyError "lender").
Proof.
  apply (proj2 (init_outcomes _ no_context) eq_refl).
  cbn. split.
  - apply list_elem_of_further, list_elem_of_here.
  - rewrite !elem_of_cons, elem_of_nil. by intros [?|[?|?]].
Defined.

(** [create] needs the key [reservation], optional as the field is: without
    it [KeyError] is raised and no rental is stored; with it the manager gets
    the validated data as they were. *)
Theorem create_needs_reservation objects_create vd tb :
  (vd !! "reservation" = None →
   create objects_create vd tb = (Raise (KeyError "reservation"), tb))
  ∧ (is_Some (vd !! "reservation") →
     create objects_create vd tb = objects_create vd tb).
Proof.
  unfold create. split.
  - by intros ->.
  - intros [r Hr]. rewrite Hr. cbn. by rewrite insert_id.
Qed.

Lemma create_needs_reservation_witness :
  create append_row (<["lender" := VStr "carol"]> ∅) []
  = (Raise (KeyError "reservation"), [])
  ∧ create append_row (rental "bob" "carol") []
    = (Ok (rental "bob" "carol"), [rental "bob" "carol"]).
Proof.
  split.
  - apply (proj1 (create_needs_reservation append_row _ [])). reflexivity.
  - apply (proj2 (create_needs_reservation append_row
                    (rental "bob" "carol") [])).
    by exists (VInt 3).
Defined.

End rental_more.

(** ** MaxRentDurationSerializer, further *)

Section MaxRentDuration_more.
Import MaxRentDurationSerializer.

Lemma of_days_Raise v e :
  timedelta.of_days v = Raise e →
  e = OverflowError "days; must have magnitude <= 999999999".
Proof.
  unfold timedelta.of_days. destruct (float.modf v) as [fracpart intpart].
  destruct (_ && _); [discriminate|]. by intros [= <-].
Qed.

Lemma valid_whole_seconds d n :
  timedelta.to_microseconds d = n * timedelta.us_per_second →
  timedelta.valid d → Z.abs n < 2 ^ 53.
Proof.
  unfold timedelta.valid, timedelta.days, timedelta.max_days. intros ->.
  unfold timedelta.us_per_day.
  rewrite Z.div_mul_cancel_r by done.
  pose proof (Z.div_mod n 86400 ltac:(lia)).
  pose proof (Z.mod_pos_bound n 86400 ltac:(lia)).
  change (2 ^ 53) with 9007199254740992. lia.
Qed.

(** For an input duration of whole seconds, at most 999999999 of them,
    the row that [create] or [update] stores reports that number of seconds
    as its [duration_in_days]. *)
Theorem duration_in_days_is_input_seconds d n p o op oo inst tb :
  timedelta.to_microseconds d = n * timedelta.us_per_second →
  Z.abs n <= timedelta.max_days →
  (∃ row,
      create {| v_prio := Some p; v_rental_object_type := Some o;
                v_duration := Some d |} tb = Ok (row, tb ++ [row])
      ∧ get_duration_in_days row = n)
  ∧ (∃ row tb',
      update inst {| v_prio := op; v_rental_object_type := oo;
                     v_duration := Some d |} tb = Ok (row, tb')
      ∧ id row = id inst
      ∧ get_duration_in_days row = n
      ∧ (∀ r, r ∈ tb' ↔ r = row ∨ (r ∈ tb ∧ id r ≠ id inst))).
Proof.
  intros Hd Hn. split.
  - exists {| id := fresh_id tb; prio := p; rental_object_type := o;
              duration := timedelta.make n 0 0 |}.
    split; [apply (create_whole_seconds _ _ _ _ _ Hd Hn)|].
    apply timedelta_days_make.
  - exists {| id := id inst; prio := default (prio inst) op;
              rental_object_type := default (rental_object_type inst) oo;
              duration := timedelta.make n 0 0 |}.
    eexists.
    split; [apply (update_whole_seconds _ _ _ _ _ _ Hd Hn)|].
    split; [reflexivity|]. split; [apply timedelta_days_make|].
    intros r. rewrite elem_of_save. reflexivity.
Qed.

Lemma duration_in_days_is_input_seconds_witness :
  ∃ row,
    create {| v_prio := Some 1; v_rental_object_type := Some 3;
              v_duration := Some (timedelta.make 0 7 0) |} []
    = Ok (row, [row])
    ∧ get_duration_in_days row = 7.
Proof.
  apply (duration_in_days_is_input_seconds (timedelta.make 0 7 0) 7 1 3
           None None
           {| id := 1; prio := 1; rental_object_type := 3;
              duration := timedelta.make 7 0 0 |} []).
  - reflexivity.
  - unfold timedelta.max_days. lia.
Defined.

(** Writing the stored duration of a row, of whole seconds, back through
    [update]: up to 999999999 seconds the row gets 86400 times that
    duration, the same duration only when it is zero; beyond, [update]
    raises [OverflowError]. *)
Theorem update_with_stored_duration inst n op oo tb :
  timedelta.to_microseconds (duration inst) = n * timedelta.us_per_second →
  timedelta.valid (duration inst) →
  (Z.abs n <= timedelta.max_days →
   ∃ row tb',
     update inst {| v_prio := op; v_rental_object_type := oo;
                    v_duration := Some (duration inst) |} tb
     = Ok (row, tb')
     ∧ id row = id inst
     ∧ timedelta.to_microseconds (duration row)
       = 86400 * timedelta.to_microseconds (duration inst)
     ∧ (duration row = duration inst ↔ n = 0)
     ∧ (∀ r, r ∈ tb' ↔ r = row ∨ (r ∈ tb ∧ id r ≠ id inst)))
  ∧ (timedelta.max_days < Z.abs n →
     update inst {| v_prio := op; v_rental_object_type := oo;
                    v_duration := Some (duration inst) |} tb
     = Raise (OverflowError "days; must have magnitude <= 999999999")).
Proof.
  intros Hd Hv. split.
  - intros Hn.
    exists {| id := id inst; prio := default (prio inst) op;
              rental_object_type := default (rental_object_type inst) oo;
              duration := timedelta.make n 0 0 |}.
    eexists.
    split; [apply (update_whole_seconds _ _ _ _ _ _ Hd Hn)|].
    split; [reflexivity|].
    assert (Hm : timedelta.to_microseconds (timedelta.make n 0 0)
                 = 86400 * timedelta.to_microseconds (duration inst)).
    { rewrite Hd. unfold timedelta.make, timedelta.us_per_day. cbn. lia. }
    split; [exact Hm|]. split.
    + split.
      * cbn [duration]. intros E.
        assert (X : timedelta.to_microseconds (duration inst)
                    = n * timedelta.us_per_day).
        { rewrite <-E. unfold timedelta.make. cbn. lia. }
        rewrite Hd in X.
        unfold timedelta.us_per_day, timedelta.us_per_second in X. lia.
      * intros ->. cbn [duration]. destruct (duration inst) as [u].
        cbn in Hd. subst u. reflexivity.
    + intros r. rewrite elem_of_save. reflexivity.
  - intros Hn.
    apply (create_update_overflow (duration inst) n
             {| v_prio := op; v_rental_object_type := oo;
                v_duration := Some (duration inst) |} inst tb
             eq_refl Hd Hn).
    by apply (valid_whole_seconds (duration inst)).
Qed.

Lemma update_with_stored_duration_witness :
  update {| id := 1; prio := 1; rental_object_type := 3;
            duration := timedelta.make 604800 0 0 |}
         {| v_prio := None; v_rental_object_type := None;
            v_duration := Some (timedelta.make 604800 0 0) |} []
  = Raise (OverflowError "days; must have magnitude <= 999999999").
Proof.
  apply (proj2 (update_with_stored_duration
                  {| id := 1; prio := 1; rental_object_type := 3;
                     duration := timedelta.make 604800 0 0 |}
                  52254720000 None None [] eq_refl
                  ltac:(vm_compute; split; discriminate))).
  unfold timedelta.max_days. lia.
Defined.

(** [update] and [create] raise [KeyError] for the key [duration] exactly
    when the validated data lack it, as in a partial update of the other
    fields alone. *)
Theorem update_needs_duration inst v tb :
  (update inst v tb = Raise (KeyError "duration") ↔ v_duration v = None)
  ∧ (create v tb = Raise (KeyError "duration") ↔ v_duration v = None).
Proof.
  unfold update, create, rescale. destruct (v_duration v) as [d|].
  - destruct (timedelta.of_days (timedelta.total_seconds d)) as [d'|e] eqn:E.
    + unfold mbind, result_bind, model_update, model_create.
      cbn [v_prio v_rental_object_type v_duration].
      split; (split; [|discriminate]).
      * discriminate.
      * destruct (v_prio v), (v_rental_object_type v); discriminate.
    + apply of_days_Raise in E as ->.
      unfold mbind, result_bind.
      split; (split; discriminate).
  - unfold mbind, result_bind. done.
Qed.

Lemma update_needs_duration_witness :
  update {| id := 1; prio := 1; rental_object_type := 3;
            duration := timedelta.make 7 0 0 |}
         {| v_prio := Some 2; v_rental_object_type := None;
            v_duration := None |} []
  = Raise (KeyError "duration").
Proof.
  apply (proj2 (proj1 (update_needs_duration _ _ []))). reflexivity.
Defined.

End MaxRentDuration_more.

(** ** backend/settings.py *)

Section settings_facts.
Import settings.

Lemma endswith_spec suffix s :
  endswith suffix s = true ↔ ∃ pre, s = pre +:+ suffix.
Proof.
  induction s as [|c s IH]; cbn.
  - rewrite orb_false_r, bool_decide_eq_true. split.
    + intros <-. by exists "".
    + intros [pre H]. symmetry in H. by apply append_eq_nil in H as [_ ->].
  - rewrite orb_true_iff, bool_decide_eq_true, IH. split.
    + intros [<-|[pre ->]]; [by exists ""|by exists (String c pre)].
    + intros [[|a pre] H].
      * left. by rewrite append_nil_l in H.
      * right. rewrite append_cons in H. injection H as _ ->. by exists pre.
Qed.

(** [FRONTEND_HOST] always ends in a slash: a value that ends in one is
    taken as it is, any other gets one slash appended, so that computing it
    again from its own value changes nothing. *)
Theorem FRONTEND_HOST_ends_with_slash e :
  endswith "/" (FRONTEND_HOST e) = true
  ∧ (endswith "/" (str (env_FRONTEND_HOST e)) = true →
     FRONTEND_HOST e = str (env_FRONTEND_HOST e))
  ∧ (endswith "/" (str (env_FRONTEND_HOST e)) = false →
     FRONTEND_HOST e = str (env_FRONTEND_HOST e) +:+ "/")
  ∧ FRONTEND_HOST {| env_FRONTEND_HOST := Some (FRONTEND_HOST e);
                     env_API_HOST := env_API_HOST e |}
    = FRONTEND_HOST e.
Proof.
  assert (H : endswith "/" (FRONTEND_HOST e) = true).
  { unfold FRONTEND_HOST.
    destruct (endswith "/" (str (env_FRONTEND_HOST e))) eqn:E; [done|].
    apply endswith_spec. by eexists. }
  split; [exact H|].
  split; [intros E; unfold FRONTEND_HOST; by rewrite E|].
  split; [intros E; unfold FRONTEND_HOST; by rewrite E|].
  generalize dependent (FRONTEND_HOST e). intros x Hx.
  unfold FRONTEND_HOST.
  change (str (env_FRONTEND_HOST
                 {| env_FRONTEND_HOST := Some x;
                    env_API_HOST := env_API_HOST e |})) with x.
  by rewrite Hx.
Qed.

Lemma FRONTEND_HOST_ends_with_slash_witness :
  FRONTEND_HOST {| env_FRONTEND_HOST := Some "https://rent.example.org";
                   env_API_HOST := None |}
  = "https://rent.example.org/".
Proof.
  apply (proj1 (proj2 (proj2 (FRONTEND_HOST_ends_with_slash
    {| env_FRONTEND_HOST := Some "https://rent.example.org";
       env_API_HOST := None |})))).
  reflexivity.
Defined.

Lemma split_cons sep c s :
  split sep (String c s)
  = if Ascii.eqb c sep then "" :: split sep s
    else match split sep s with
         | piece :: pieces => String c piece :: pieces
         | [] => [String c ""]
         end.
Proof. reflexivity. Qed.

Lemma split_not_nil sep s : split sep s ≠ [].
Proof.
  induction s as [|c s IH]; [done|]. rewrite split_cons.
  destruct (Ascii.eqb c sep); [done|]. by destruct (split sep s).
Qed.

Lemma join_cons sep piece pieces :
  pieces ≠ [] →
  join sep (piece :: pieces) = piece +:+ String sep (join sep pieces).
Proof. by destruct pieces. Qed.

Lemma join_split sep s : join sep (split sep s) = s.
Proof.
  induction s as [|c s IH]; [done|]. rewrite split_cons.
  destruct (Ascii.eqb_spec c sep) as [->|Hc].
  - rewrite join_cons by apply split_not_nil. by rewrite IH.
  - pose proof (split_not_nil sep s) as Hn.
    destruct (split sep s) as [|piece pieces]; [done|].
    destruct pieces as [|piece' pieces].
    + cbn in *. by rewrite IH.
    + rewrite join_cons in IH by done. rewrite join_cons by done.
      by rewrite append_cons, IH.
Qed.

Lemma split_pieces sep s piece :
  piece ∈ split sep s → all_chars (λ c, negb (Ascii.eqb c sep)) piece = true.
Proof.
  revert piece. induction s as [|c s IH]; intros piece.
  - cbn. by intros ->%list_elem_of_singleton.
  - rewrite split_cons. destruct (Ascii.eqb c sep) eqn:Hc.
    + intros [->|H]%elem_of_cons; [done|by apply IH].
    + pose proof (split_not_nil sep s) as Hn.
      destruct (split sep s) as [|p ps]; [done|].
      intros [->|H]%elem_of_cons.
      * cbn. rewrite Hc. cbn. apply IH. left.
      * apply IH. by right.
Qed.

(** The lists split off the environment lose nothing: joined with commas,
    [CSRF_TRUSTED_ORIGINS] is the text of [API_HOST] and
    [CORS_ALLOWED_ORIGINS] the text of [FRONTEND_HOST]; no entry holds a
    comma, and neither list is empty. *)
Theorem origins_split_join e :
  join "," (CSRF_TRUSTED_ORIGINS e) = str (env_API_HOST e)
  ∧ join "," (CORS_ALLOWED_ORIGINS e) = str (env_FRONTEND_HOST e)
  ∧ (∀ o, o ∈ CSRF_TRUSTED_ORIGINS e ∨ o ∈ CORS_ALLOWED_ORIGINS e →
          all_chars (λ c, negb (Ascii.eqb c ",")) o = true)
  ∧ CSRF_TRUSTED_ORIGINS e ≠ [] ∧ CORS_ALLOWED_ORIGINS e ≠ []
  ∧ length (ALLOWED_HOSTS e) = length (CSRF_TRUSTED_ORIGINS e).
Proof.
  unfold CSRF_TRUSTED_ORIGINS, CORS_ALLOWED_ORIGINS, ALLOWED_HOSTS.
  split; [apply join_split|]. split; [apply join_split|].
  split; [intros o [H|H]; by apply split_pieces in H|].
  split; [apply split_not_nil|]. split; [apply split_not_nil|].
  apply length_fmap.
Qed.

Lemma origins_split_join_witness :
  all_chars (λ c, negb (Ascii.eqb c ",")) "http://b.example.org" = true.
Proof.
  apply (proj1 (proj2 (proj2 (origins_split_join
    {| env_FRONTEND_HOST := None;
       env_API_HOST := Some "https://a.example.org,http://b.example.org" |})))).
  left. cbn. apply list_elem_of_further, list_elem_of_here.
Defined.

Lemma startswith_app p s : startswith p (p +:+ s) = true.
Proof.
  induction p as [|c p IH]; [done|].
  rewrite append_cons. cbn. by rewrite Ascii.eqb_refl.
Qed.

Lemma replace_from_skip old new p s :
  replace_from old new (String.length p) (p +:+ s) = replace_from old new 0 s.
Proof.
  induction p as [|c p IH]; [done|]. rewrite append_cons. cbn. exact IH.
Qed.

Lemma replace_prefix c old new s :
  replace (String c old) new (String c old +:+ s)
  = new +:+ replace (String c old) new s.
Proof.
  unfold replace. rewrite append_cons.
  change (replace_from (String c old) new 0 (String c (old +:+ s)))
    with (if startswith (String c old) (String c (old +:+ s))
          then new +:+ replace_from (String c old) new
                         (String.length (String c old) - 1) (old +:+ s)
          else String c (replace_from (String c old) new 0 (old +:+ s))).
  rewrite <-append_cons, startswith_app.
  cbn [String.length]. rewrite Nat.sub_succ, Nat.sub_0_r.
  by rewrite replace_from_skip.
Qed.

Lemma replace_absent old new s :
  occurs old s = false → replace old new s = s.
Proof.
  unfold replace. induction s as [|c s IH]; [done|].
  cbn [occurs]. intros [H1 H2]%orb_false_iff.
  cbn [replace_from]. rewrite H1. by rewrite IH.
Qed.

(** An origin that is [https://] or [http://] followed by a host gives that
    host in [ALLOWED_HOSTS], provided the host holds neither of the two
    markers; an origin that holds neither is taken as it is. *)
Theorem strip_scheme_host h :
  occurs "https://" h = false → occurs "http://" h = false →
  strip_scheme ("https://" +:+ h) = h
  ∧ strip_scheme ("http://" +:+ h) = h
  ∧ strip_scheme h = h.
Proof.
  intros Hs Hp. unfold strip_scheme. split; [|split].
  - rewrite (replace_prefix "h" "ttps://" "" h), append_nil_l.
    by rewrite (replace_absent _ _ _ Hs), (replace_absent _ _ _ Hp).
  - rewrite (replace_absent "https://" "" ("http://" +:+ h)).
    + rewrite (replace_prefix "h" "ttp://" "" h), append_nil_l.
      by apply replace_absent.
    + rewrite !append_cons, append_nil_l.
      cbn -[startswith]. cbn [startswith Ascii.eqb Bool.eqb andb orb].
      cbn in Hs. exact Hs.
  - by rewrite (replace_absent _ _ _ Hs), (replace_absent _ _ _ Hp).
Qed.

Lemma strip_scheme_host_witness :
  strip_scheme "https://api.example.org" = "api.example.org".
Proof.
  apply (proj1 (strip_scheme_host "api.example.org" eq_refl eq_refl)).
Defined.

Example ALLOWED_HOSTS_example :
  ALLOWED_HOSTS {| env_FRONTEND_HOST := None;
                   env_API_HOST :=
                     Some "https://a.example.org,http://b.example.org" |}
  = ["a.example.org"; "b.example.org"].
Proof. reflexivity. Qed.

Example ALLOWED_HOSTS_unset :
  ALLOWED_HOSTS {| env_FRONTEND_HOST := None; env_API_HOST := None |}
  = ["None"].
Proof. reflexivity. Qed.

End settings_facts.
